(** * Journal-entry audit pipeline ([api.py], endpoint [/analyze])

    A shallow embedding of [analyze_je]: column inference by substring
    match, amount reconciliation, date normalisation, row cleaning, the
    seven anomaly rules, the derived [Has Anomaly] column and the summary.

    Data frames are modelled column-major, as polars has them: an ordered
    list of named, typed series.  Exceptions are modelled with a small
    error monad; the [try ... except Exception] of the endpoint is the
    function [analyze_je] that turns a raised exception into a failure
    response. *)

From Stdlib Require Import ZArith QArith Qround Qabs List String Ascii Bool Lia Lqa.
From Stdlib Require Import DecimalString.
Import ListNotations.

Set Implicit Arguments.

(** ** Float64 values

    A [Float64] is modelled as an exact rational or one of the IEEE special
    values.  Results whose magnitude reaches the IEEE binary64 overflow
    threshold become infinities; rounding of results that stay in range is
    not modelled (they are kept exact).  Signed zeros are not
    distinguished. *)
Module F64.

Inductive t : Type :=
| Fin (q : Q)
| PInf
| NInf
| NaN.

(** Magnitudes at or above [2^1024 - 2^970] round to infinity in binary64. *)
Definition overflow_threshold : Q := inject_Z (2 ^ 1024 - 2 ^ 970).

Definition Qlt_bool (a b : Q) : bool := negb (Qle_bool b a).

Definition round (q : Q) : t :=
  if Qle_bool overflow_threshold q then PInf
  else if Qle_bool q (- overflow_threshold) then NInf
  else Fin (Qred q).

Definition of_Z (z : Z) : t := round (inject_Z z).

Definition zero : t := Fin 0.

Definition neg (x : t) : t :=
  match x with
  | Fin q => Fin (Qred (- q))
  | PInf => NInf
  | NInf => PInf
  | NaN => NaN
  end.

Definition abs (x : t) : t :=
  match x with
  | Fin q => Fin (Qred (Qabs q))
  | PInf | NInf => PInf
  | NaN => NaN
  end.

Definition add (x y : t) : t :=
  match x, y with
  | NaN, _ | _, NaN => NaN
  | PInf, NInf | NInf, PInf => NaN
  | PInf, _ | _, PInf => PInf
  | NInf, _ | _, NInf => NInf
  | Fin a, Fin b => round (a + b)
  end.

Definition sub (x y : t) : t := add x (neg y).

(** Sign of a rational as seen by multiplication and division with an
    infinity: [None] for zero. *)
Definition sign (q : Q) : option bool :=
  if Qeq_bool q 0 then None else Some (Qlt_bool 0 q).

Definition signed_inf (positive : bool) : t := if positive then PInf else NInf.

Definition mul (x y : t) : t :=
  match x, y with
  | NaN, _ | _, NaN => NaN
  | Fin a, Fin b => round (a * b)
  | PInf, PInf | NInf, NInf => PInf
  | PInf, NInf | NInf, PInf => NInf
  | PInf, Fin b | Fin b, PInf =>
      match sign b with Some s => signed_inf s | None => NaN end
  | NInf, Fin b | Fin b, NInf =>
      match sign b with Some s => signed_inf (negb s) | None => NaN end
  end.

(** IEEE division.  A zero divisor gives an infinity or a NaN here; Python's
    [/] raises instead, see [py_truediv] below. *)
Definition div (x y : t) : t :=
  match x, y with
  | NaN, _ | _, NaN => NaN
  | Fin a, Fin b =>
      if Qeq_bool b 0
      then match sign a with Some s => signed_inf s | None => NaN end
      else round (a / b)
  | Fin _, (PInf | NInf) => Fin 0
  | (PInf | NInf), (PInf | NInf) => NaN
  | PInf, Fin b => signed_inf (Qle_bool 0 b)
  | NInf, Fin b => signed_inf (negb (Qle_bool 0 b))
  end.

(** [x % 1] for a non-negative [x], as the Round Large Amount rule uses it. *)
Definition rem1 (x : t) : t :=
  match x with
  | Fin q => Fin (Qred (q - inject_Z (Qfloor q)))
  | _ => NaN
  end.

(** Comparisons of two columns or of a column and a literal.  Polars
    compares floats in a total order: the usual order on the numbers and
    the infinities, with a NaN equal to a NaN and greater than every other
    value (so [NaN >= x] holds for every [x], and [x >= NaN] only for a
    NaN). *)
Definition eqb (x y : t) : bool :=
  match x, y with
  | Fin a, Fin b => Qeq_bool a b
  | PInf, PInf | NInf, NInf | NaN, NaN => true
  | _, _ => false
  end.

Definition ltb (x y : t) : bool :=
  match x, y with
  | NaN, _ => false
  | _, NaN => true
  | Fin a, Fin b => Qlt_bool a b
  | NInf, (Fin _ | PInf) => true
  | Fin _, PInf => true
  | _, _ => false
  end.

Definition leb (x y : t) : bool := ltb x y || eqb x y.
Definition gtb (x y : t) : bool := ltb y x.
Definition geb (x y : t) : bool := leb y x.

(** Equality used when rows are grouped ([is_duplicated]): NaNs compare
    equal to each other there too. *)
Definition same (x y : t) : bool :=
  match x, y with
  | NaN, NaN => true
  | _, _ => eqb x y
  end.


(** [Series.sum()] over non-null values. *)
Definition sum (xs : list t) : t := fold_left add xs zero.

(** Round half to even at the integers. *)
Definition round_half_even (q : Q) : Z :=
  let n := Qfloor q in
  let frac := q - inject_Z n in
  if Qlt_bool frac (1 # 2) then n
  else if Qlt_bool (1 # 2) frac then (n + 1)%Z
  else if Z.even n then n else (n + 1)%Z.

(** Python's [round(x, 2)]: infinities and NaN are returned unchanged. *)
Definition py_round2 (x : t) : t :=
  match x with
  | Fin q => Fin (Qred (inject_Z (round_half_even (q * 100)) / 100))
  | _ => x
  end.

End F64.

(** ** Strings *)
Module Str.

Local Open Scope string_scope.

Definition lower_ascii (c : ascii) : ascii :=
  let n := nat_of_ascii c in
  if Nat.leb 65 n && Nat.leb n 90 then ascii_of_nat (n + 32) else c.

(** [s.lower()] / [str.to_lowercase()].  Only ASCII letters are mapped; no
    token or keyword of the program contains a letter that a non-ASCII
    character lowers to, so the membership tests below see the same
    answer. *)
Fixpoint lower (s : string) : string :=
  match s with
  | EmptyString => EmptyString
  | String c r => String (lower_ascii c) (lower r)
  end.

(** [sub in s]. *)
Fixpoint contains (sub s : string) : bool :=
  prefix sub s ||
  match s with
  | EmptyString => false
  | String _ r => contains sub r
  end.

Fixpoint drop (n : nat) (s : string) : string :=
  match n, s with
  | O, _ => s
  | S _, EmptyString => EmptyString
  | S m, String _ r => drop m r
  end.

(** [str.replace(pat, value)] for a pattern without regex metacharacters:
    polars' [replace] has [n = 1], it rewrites the FIRST match only
    ([replace_all] is the call that rewrites every match). *)
Fixpoint replace (pat value s : string) : string :=
  if prefix pat s then value ++ drop (length pat) s
  else match s with
       | EmptyString => EmptyString
       | String c r => String c (replace pat value r)
       end.

(** Every match rewritten, for comparison with [replace]; the pattern is a
    single character here. *)
Fixpoint remove_char (c : ascii) (s : string) : string :=
  match s with
  | EmptyString => EmptyString
  | String d r => if Ascii.eqb c d then remove_char c r else String d (remove_char c r)
  end.

Definition in_list (s : string) (l : list string) : bool :=
  existsb (String.eqb s) l.

End Str.

(** ** Exceptions and the error monad *)

(** The errors polars raises in this program, by kind; the text of their
    messages is the library's and is not modelled. *)
Inductive polars_error : Type :=
| ColumnNotFound (name : string)
| WrongDtype (operation : string)
| EmptyFold.

Inductive exn : Type :=
| HTTPException (status_code : Z) (detail : string)
| PolarsError (e : polars_error)
| ZeroDivisionError.

Definition result (A : Type) : Type := (exn + A)%type.

Definition ret {A} (a : A) : result A := inr a.
Definition raise {A} (e : exn) : result A := inl e.
Definition bind {A B} (m : result A) (k : A -> result B) : result B :=
  match m with
  | inl e => inl e
  | inr a => k a
  end.

Notation "x <- m ;; k" := (bind m (fun x => k))
  (at level 61, m at next level, right associativity).

(** Python's [x / y] on floats. *)
Definition py_truediv (x y : F64.t) : result F64.t :=
  match y with
  | F64.Fin b => if Qeq_bool b 0 then raise ZeroDivisionError else ret (F64.div x y)
  | _ => ret (F64.div x y)
  end.

(** ** Series and data frames *)

(** A column: a dtype together with its nullable values.  A [Datetime] is
    its number of microseconds since the Unix epoch. *)
Inductive series : Type :=
| SUtf8 (xs : list (option string))
| SInt64 (xs : list (option Z))
| SFloat64 (xs : list (option F64.t))
| SBoolean (xs : list (option bool))
| SDatetime (xs : list (option Z)).

Definition frame : Type := list (string * series).

(** One value of a row, tagged with its dtype. *)
Inductive cell : Type :=
| CNull
| CStr (s : string)
| CInt (z : Z)
| CFloat (f : F64.t)
| CBool (b : bool)
| CDatetime (us : Z).

Definition opt_cell {A} (f : A -> cell) (o : option A) : cell :=
  match o with Some a => f a | None => CNull end.

Definition series_cells (s : series) : list cell :=
  match s with
  | SUtf8 xs => map (opt_cell CStr) xs
  | SInt64 xs => map (opt_cell CInt) xs
  | SFloat64 xs => map (opt_cell CFloat) xs
  | SBoolean xs => map (opt_cell CBool) xs
  | SDatetime xs => map (opt_cell CDatetime) xs
  end.

Definition series_len (s : series) : nat := List.length (series_cells s).

Definition is_some {A} (o : option A) : bool :=
  match o with Some _ => true | None => false end.

(** [is_not_null()] *)
Definition is_not_null (s : series) : list bool :=
  match s with
  | SUtf8 xs => map is_some xs
  | SInt64 xs => map is_some xs
  | SFloat64 xs => map is_some xs
  | SBoolean xs => map is_some xs
  | SDatetime xs => map is_some xs
  end.

(** Keep the positions where the mask is true. *)
Fixpoint filter_mask {A} (mask : list bool) (xs : list A) : list A :=
  match mask, xs with
  | b :: mask', x :: xs' =>
      if b then x :: filter_mask mask' xs' else filter_mask mask' xs'
  | _, _ => []
  end.

Definition filter_series (mask : list bool) (s : series) : series :=
  match s with
  | SUtf8 xs => SUtf8 (filter_mask mask xs)
  | SInt64 xs => SInt64 (filter_mask mask xs)
  | SFloat64 xs => SFloat64 (filter_mask mask xs)
  | SBoolean xs => SBoolean (filter_mask mask xs)
  | SDatetime xs => SDatetime (filter_mask mask xs)
  end.

Definition columns (df : frame) : list string := map fst df.

(** [len(df)] *)
Definition height (df : frame) : nat :=
  match df with
  | [] => O
  | (_, s) :: _ => series_len s
  end.

(** Every column has the frame's height: what a polars frame guarantees. *)
Definition wf_frame (df : frame) : Prop :=
  Forall (fun c => series_len (snd c) = height df) df.

Fixpoint get_column (name : string) (df : frame) : result series :=
  match df with
  | [] => raise (PolarsError (ColumnNotFound name))
  | (n, s) :: rest => if String.eqb n name then ret s else get_column name rest
  end.

Definition has_column (name : string) (df : frame) : bool :=
  existsb (String.eqb name) (columns df).

(** [df.filter(mask)] *)
Definition filter_frame (mask : list bool) (df : frame) : frame :=
  map (fun c => (fst c, filter_series mask (snd c))) df.

(** [df.with_columns(...)] for one named series: an existing column of that
    name is replaced in place, a new name is appended. *)
Fixpoint with_column (name : string) (s : series) (df : frame) : frame :=
  match df with
  | [] => [(name, s)]
  | (n, old) :: rest =>
      if String.eqb n name then (n, s) :: rest
      else (n, old) :: with_column name s rest
  end.

Definition with_columns (news : list (string * series)) (df : frame) : frame :=
  fold_left (fun acc c => with_column (fst c) (snd c) acc) news df.

(** [df.drop([name])] *)
Definition drop_column (name : string) (df : frame) : frame :=
  filter (fun c => negb (String.eqb (fst c) name)) df.

(** [df.to_dicts()]: one mapping from column name to value per row. *)
Definition to_dicts (df : frame) : list (list (string * cell)) :=
  map (fun i => map (fun c => (fst c, nth i (series_cells (snd c)) CNull)) df)
      (seq 0 (height df)).

(** [pl.lit(False)] broadcast to the frame's height. *)
Definition lit_false (df : frame) : series :=
  SBoolean (repeat (Some false) (height df)).

(** ** The library functions the endpoint relies on

    What polars does inside a cast, a date parse or a quantile is not in
    [api.py]; the pipeline is parameterised by it.  [reference_polars]
    below is an instance used to run the pipeline on concrete tables. *)
Record polars : Type := Polars {
  (** [cast(pl.Float64, strict=False)] of one string: [None] when the text
      is not a number. *)
  str_to_f64 : string -> option F64.t;
  (** [cast(pl.Utf8)] of one float and of one datetime. *)
  f64_to_str : F64.t -> string;
  datetime_to_str : Z -> string;
  (** [str.strptime(pl.Datetime, fmt, strict=False)] of one string: [None]
      when the text does not match the format. *)
  strptime : string -> string -> option Z;
  (** [quantile(q)] of the non-null values of a column. *)
  quantile : Q -> list F64.t -> F64.t
}.

Definition somes {A} (xs : list (option A)) : list A :=
  flat_map (fun o => match o with Some a => [a] | None => [] end) xs.

Definition int_to_str (z : Z) : string := NilZero.string_of_int (Z.to_int z).

Definition bool_to_str (b : bool) : string :=
  if b then "true"%string else "false"%string.

Definition bool_to_f64 (b : bool) : F64.t :=
  if b then F64.Fin 1 else F64.zero.

Definition opt_bind {A B} (f : A -> option B) (o : option A) : option B :=
  match o with Some a => f a | None => None end.

(** [fill_null(v)] *)
Definition fill_null (v : F64.t) (xs : list (option F64.t)) : list (option F64.t) :=
  map (fun c => Some (match c with Some x => x | None => v end)) xs.

(** [a - b] on two Float64 series: null where either side is null. *)
Definition series_sub (xs ys : list (option F64.t)) : list (option F64.t) :=
  map (fun p => match p with
                | (Some a, Some b) => Some (F64.sub a b)
                | _ => None
                end) (combine xs ys).

(** [.str.replace(pat, value)] on a Utf8 series. *)
Definition str_replace (pat value : string) (xs : list (option string))
  : list (option string) :=
  map (option_map (Str.replace pat value)) xs.

(** [c for c in df.columns if tok1 in c.lower() or tok2 in c.lower() ...] *)
Definition candidates (tokens : list string) (df : frame) : list string :=
  filter (fun c => existsb (fun tok => Str.contains tok (Str.lower c)) tokens)
         (columns df).

Definition debit_candidates := candidates ["debit"%string].
Definition credit_candidates := candidates ["credit"%string].
Definition amount_candidates := candidates ["amount"%string; "amt"%string].
Definition date_candidates :=
  candidates ["date"%string; "effective"%string; "posted"%string].

Definition key_fields : list (string * string) :=
  [ ("account", "account"); ("description", "description"); ("je_id", "je_id");
    ("created_by", "created_by"); ("posted_by", "posted_by");
    ("cost_center", "cost_center"); ("project", "project") ]%string.

Definition date_formats : list string :=
  [ "%Y-%m-%d"; "%d-%b-%Y"; "%d-%b-%y"; "%m/%d/%Y"; "%d/%m/%Y";
    "%Y%m%d"; "%B %d, %Y"; "%b %d, %Y"; "%d-%m-%Y"; "%m-%d-%Y" ]%string.

Definition suspicious_words : list string :=
  [ "adjust"; "misc"; "manual"; "override"; "error"; "temp";
    "reversal"; "correction"; "clearing"; "suspense"; "miscellaneous" ]%string.

Definition flag_names : list string :=
  [ "Round Large Amount"; "Near-Zero Amount"; "Suspicious Description";
    "Weekend Entry"; "Duplicate Entry"; "High-Value Entry";
    "Repeating Entry" ]%string.

(** An unevaluated polars expression; the only one the program keeps in a
    variable is the date parse. *)
Inductive expr : Type :=
| StrptimeExpr (column fmt : string).

(** [dt.weekday()]: Monday is 1, Sunday is 7. *)
Definition weekday (us : Z) : Z :=
  ((us / 86400000000 + 3) mod 7 + 1)%Z.

Definition cell_eqb (a b : cell) : bool :=
  match a, b with
  | CNull, CNull => true
  | CStr s, CStr t => String.eqb s t
  | CInt x, CInt y => Z.eqb x y
  | CFloat x, CFloat y => F64.same x y
  | CBool x, CBool y => Bool.eqb x y
  | CDatetime x, CDatetime y => Z.eqb x y
  | _, _ => false
  end.

Fixpoint row_eqb (r1 r2 : list cell) : bool :=
  match r1, r2 with
  | [], [] => true
  | a :: r1', b :: r2' => cell_eqb a b && row_eqb r1' r2'
  | _, _ => false
  end.

(** The rows of [pl.struct(cols)] for a frame of height [n]. *)
Definition struct_rows (cols : list series) (n : nat) : list (list cell) :=
  map (fun i => map (fun s => nth i (series_cells s) CNull) cols) (seq 0 n).

Definition count_rows (r : list cell) (rows : list (list cell)) : nat :=
  List.length (filter (row_eqb r) rows).

(** [is_duplicated()]: the row occurs more than once. *)
Definition is_duplicated (rows : list (list cell)) : series :=
  SBoolean (map (fun r => Some (Nat.ltb 1 (count_rows r rows))) rows).

Fixpoint get_columns (names : list string) (df : frame) : result (list series) :=
  match names with
  | [] => ret []
  | n :: rest =>
      s <- get_column n df ;;
      ss <- get_columns rest df ;;
      ret (s :: ss)
  end.

Definition struct_is_duplicated (names : list string) (df : frame) : result series :=
  cols <- get_columns names df ;;
  ret (is_duplicated (struct_rows cols (height df))).

(** Three-valued [or], as polars combines nullable booleans. *)
Definition kleene_or (a b : option bool) : option bool :=
  match a, b with
  | Some true, _ | _, Some true => Some true
  | Some false, Some false => Some false
  | _, _ => None
  end.

Definition zip_or (xs ys : list (option bool)) : list (option bool) :=
  map (fun p => kleene_or (fst p) (snd p)) (combine xs ys).

Definition bool_values (operation : string) (s : series)
  : result (list (option bool)) :=
  match s with
  | SBoolean xs => ret xs
  | _ => raise (PolarsError (WrongDtype operation))
  end.

Definition float_values (s : series) : result (list (option F64.t)) :=
  match s with
  | SFloat64 xs => ret xs
  | _ => raise (PolarsError (WrongDtype "abs"))
  end.

(** [pl.any_horizontal(names)] evaluated on [df]. *)
Fixpoint any_horizontal (names : list string) (df : frame)
  : result (list (option bool)) :=
  match names with
  | [] => raise (PolarsError EmptyFold)
  | [n] => s <- get_column n df ;; bool_values "any_horizontal" s
  | n :: rest =>
      s <- get_column n df ;;
      xs <- bool_values "any_horizontal" s ;;
      ys <- any_horizontal rest df ;;
      ret (zip_or xs ys)
  end.

(** The mask [df.filter(pl.col(c))] keeps: nulls are dropped. *)
Definition true_mask (xs : list (option bool)) : list bool :=
  map (fun o => match o with Some true => true | _ => false end) xs.

(** [df.filter(pl.col(name))] *)
Definition filter_by (name : string) (df : frame) : result frame :=
  s <- get_column name df ;;
  xs <- bool_values "filter" s ;;
  ret (filter_frame (true_mask xs) df).

(** ** The analysis pipeline of [analyze_je] *)

Record summary : Type := Summary {
  total_entries : nat;
  net_balance : F64.t;
  imbalance_pct : F64.t;
  anomalies_found : nat
}.

Record payload : Type := Payload {
  p_summary : summary;
  charts_anomalies : list (string * nat);
  anomalies_data : list (list (string * cell))
}.

(** The JSON object the endpoint returns. *)
Inductive response : Type :=
| Success (p : payload)
| Failure (error : exn).

Section Pipeline.

Variable pl : polars.

(** [cast(pl.Utf8)] *)
Definition cast_utf8 (s : series) : list (option string) :=
  match s with
  | SUtf8 xs => xs
  | SInt64 xs => map (option_map int_to_str) xs
  | SFloat64 xs => map (option_map (f64_to_str pl)) xs
  | SBoolean xs => map (option_map bool_to_str) xs
  | SDatetime xs => map (option_map (datetime_to_str pl)) xs
  end.

(** [cast(pl.Float64, strict=False)] *)
Definition cast_f64 (s : series) : list (option F64.t) :=
  match s with
  | SUtf8 xs => map (opt_bind (str_to_f64 pl)) xs
  | SInt64 xs => map (option_map F64.of_Z) xs
  | SFloat64 xs => xs
  | SBoolean xs => map (option_map bool_to_f64) xs
  | SDatetime xs => map (option_map F64.of_Z) xs
  end.

(** Lines 37-43 and 44-50: one side of the debit/credit pair. *)
Definition money_column (s : series) : list (option F64.t) :=
  fill_null F64.zero
    (cast_f64 (SUtf8 (str_replace "," "" (cast_utf8 s)))).

(** STEP 1: the net amount. *)
Definition amount_series (df_full : frame) : result (list (option F64.t)) :=
  match debit_candidates df_full, credit_candidates df_full with
  | dr_col :: _, cr_col :: _ =>
      dr_s <- get_column dr_col df_full ;;
      cr_s <- get_column cr_col df_full ;;
      ret (series_sub (money_column dr_s) (money_column cr_s))
  | _, _ =>
      match amount_candidates df_full with
      | amt_col :: _ =>
          s <- get_column amt_col df_full ;;
          ret (cast_f64 s)
      | [] =>
          raise (HTTPException 400
            "No amount column found (looked for 'amount', 'debit', 'credit')")
      end
  end.

(** The key fields that have a matching source column, in the order of
    [key_fields]. *)
Fixpoint select_keys (df_full : frame) (fields : list (string * string))
  : result frame :=
  match fields with
  | [] => ret []
  | (col, alias) :: rest =>
      match candidates [col] df_full with
      | c :: _ =>
          s <- get_column c df_full ;;
          more <- select_keys df_full rest ;;
          ret ((alias, s) :: more)
      | [] => select_keys df_full rest
      end
  end.

(** STEP 2 and the final [df_full.select(select_list)]. *)
Definition select_frame (df_full : frame) (amount : list (option F64.t))
  : result frame :=
  date_part <-
    match date_candidates df_full with
    | date_col :: _ =>
        s <- get_column date_col df_full ;;
        ret [("posting_date"%string, s)]
    | [] => ret []
    end ;;
  keys <- select_keys df_full key_fields ;;
  ret (("amount"%string, SFloat64 amount) :: date_part ++ keys).

(** Evaluation of a date-parse expression inside [with_columns]: the [str]
    namespace exists on string columns only; with [strict=False] a text
    that does not match becomes null. *)
Definition eval_expr (e : expr) (df : frame) : result series :=
  match e with
  | StrptimeExpr column fmt =>
      s <- get_column column df ;;
      match s with
      | SUtf8 xs => ret (SDatetime (map (opt_bind (strptime pl fmt)) xs))
      | _ => raise (PolarsError (WrongDtype "str.strptime"))
      end
  end.

(** The [for fmt in date_formats] loop.  [parsed] is assigned when the
    expression is built, before [with_columns] evaluates it. *)
Fixpoint try_formats (fmts : list string) (parsed : option expr) (selected : frame)
  : option expr * frame :=
  match fmts with
  | [] => (parsed, selected)
  | fmt :: rest =>
      let parsed := Some (StrptimeExpr "posting_date" fmt) in
      match eval_expr (StrptimeExpr "posting_date" fmt) selected with
      | inr s => (parsed, with_column "posting_date" s selected)
      | inl _ => try_formats rest parsed selected
      end
  end.

(** Smart Date Parsing, lines 88-102. *)
Definition normalize_dates (selected : frame) : frame :=
  if has_column "posting_date" selected then
    let (parsed, selected) := try_formats date_formats None selected in
    match parsed with
    | None =>
        if has_column "posting_date" selected
        then drop_column "posting_date" selected
        else selected
    | Some _ => selected
    end
  else selected.

(** Clean Invalid Rows, lines 104-107. *)
Definition clean (selected : frame) : result frame :=
  a <- get_column "amount" selected ;;
  let cleaned := filter_frame (is_not_null a) selected in
  if has_column "posting_date" cleaned then
    d <- get_column "posting_date" cleaned ;;
    ret (filter_frame (is_not_null d) cleaned)
  else ret cleaned.

Definition amounts (df : frame) : result (list (option F64.t)) :=
  s <- get_column "amount" df ;;
  float_values s.

Definition is_round_large (a : F64.t) : bool :=
  F64.eqb (F64.rem1 (F64.abs a)) F64.zero && F64.gtb (F64.abs a) (F64.Fin 1000).

Definition is_near_zero (a : F64.t) : bool :=
  F64.ltb (F64.abs a) (F64.Fin 1).

Definition round_large_amount (cleaned : frame) : result series :=
  a <- amounts cleaned ;;
  ret (SBoolean (map (option_map is_round_large) a)).

Definition near_zero_amount (cleaned : frame) : result series :=
  a <- amounts cleaned ;;
  ret (SBoolean (map (option_map is_near_zero) a)).

Definition suspicious_description (cleaned : frame) : result series :=
  if has_column "description" cleaned then
    s <- get_column "description" cleaned ;;
    match s with
    | SUtf8 xs =>
        ret (SBoolean
               (map (option_map (fun d => Str.in_list (Str.lower d) suspicious_words)) xs))
    | _ => raise (PolarsError (WrongDtype "str.to_lowercase"))
    end
  else ret (lit_false cleaned).

Definition weekend_entry (cleaned : frame) : result series :=
  if has_column "posting_date" cleaned then
    s <- get_column "posting_date" cleaned ;;
    match s with
    | SDatetime xs =>
        ret (SBoolean
               (map (fun d => Some match d with
                                   | Some us => Z.leb 6 (weekday us)
                                   | None => false
                                   end) xs))
    | _ => raise (PolarsError (WrongDtype "dt.weekday"))
    end
  else ret (lit_false cleaned).

Definition duplicate_entry (cleaned : frame) : result series :=
  let group_keys :=
    filter (fun col => negb (String.eqb col "amount")) (columns cleaned) in
  if Nat.ltb 0 (List.length group_keys)
  then struct_is_duplicated group_keys cleaned
  else ret (lit_false cleaned).

(** [cleaned.select(pl.col("amount").abs().quantile(0.99)).item()] *)
Definition high_value_threshold (cleaned : frame) : result F64.t :=
  a <- amounts cleaned ;;
  ret (quantile pl (99 # 100) (map F64.abs (somes a))).

Definition high_value_entry (cleaned : frame) : result series :=
  if Nat.ltb 10 (height cleaned) then
    threshold <- high_value_threshold cleaned ;;
    a <- amounts cleaned ;;
    ret (SBoolean (map (option_map (fun x => F64.geb (F64.abs x) threshold)) a))
  else ret (lit_false cleaned).

Definition repeating_entry (cleaned : frame) : result series :=
  if has_column "description" cleaned && has_column "account" cleaned
  then struct_is_duplicated ["account"; "amount"; "description"]%string cleaned
  else ret (lit_false cleaned).

(** ANOMALY DETECTION: the seven named expressions, evaluated on [cleaned]. *)
Definition anomaly_exprs (cleaned : frame) : result (list (string * series)) :=
  f1 <- round_large_amount cleaned ;;
  f2 <- near_zero_amount cleaned ;;
  f3 <- suspicious_description cleaned ;;
  f4 <- weekend_entry cleaned ;;
  f5 <- duplicate_entry cleaned ;;
  f6 <- high_value_entry cleaned ;;
  f7 <- repeating_entry cleaned ;;
  ret (combine flag_names [f1; f2; f3; f4; f5; f6; f7]).

(** Line 169. *)
Definition anomaly_cols (results : frame) : list string :=
  filter (fun col => negb (String.eqb col "amount")
                     && negb (String.eqb col "Has Anomaly")
                     && Str.contains "Entry" col)
         (columns results).

(** Lines 168-170: the flagged result set, with the names in
    [anomaly_cols] that the summary uses again. *)
Definition build_results (cleaned : frame) : result (list string * frame) :=
  exprs <- anomaly_exprs cleaned ;;
  let results := with_columns exprs cleaned in
  let cols := anomaly_cols results in
  has <- any_horizontal cols results ;;
  ret (cols, with_column "Has Anomaly" (SBoolean has) results).

Definition epsilon : F64.t := F64.Fin (1 # 1000000).

(** Line 176. *)
Definition imbalance (total_net abs_total : F64.t) : result F64.t :=
  r <- py_truediv (F64.abs total_net) (F64.add abs_total epsilon) ;;
  ret (F64.mul r (F64.Fin 100)).

Fixpoint chart_counts (cols : list string) (anomalies : frame)
  : result (list (string * nat)) :=
  match cols with
  | [] => ret []
  | col :: rest =>
      hit <- filter_by col anomalies ;;
      more <- chart_counts rest anomalies ;;
      ret ((col, height hit) :: more)
  end.

(** Lines 171-191. *)
Definition summarize (cols : list string) (results : frame) : result payload :=
  anomalies <- filter_by "Has Anomaly" results ;;
  a <- amounts results ;;
  let total_net := F64.sum (somes a) in
  let abs_total := F64.sum (map F64.abs (somes a)) in
  imbalance_pct <- imbalance total_net abs_total ;;
  charts <- chart_counts cols anomalies ;;
  ret (Payload
         (Summary (height results)
                  (F64.py_round2 total_net)
                  (F64.py_round2 imbalance_pct)
                  (height anomalies))
         charts
         (to_dicts anomalies)).

(** Lines 60-191: everything after the amount has been reconciled. *)
Definition analyze_rest (df_full : frame) (amount : list (option F64.t))
  : result payload :=
  selected <- select_frame df_full amount ;;
  cleaned <- clean (normalize_dates selected) ;;
  flagged <- build_results cleaned ;;
  summarize (fst flagged) (snd flagged).

(** The body of the [try] block, from the decoded table on. *)
Definition analyze_body (df_full : frame) : result payload :=
  if Nat.eqb (height df_full) 0
  then raise (HTTPException 400 "File is empty")
  else
    amount <- amount_series df_full ;;
    analyze_rest df_full amount.

(** The cleaned table and the flagged result set of a request, for
    inspection. *)
Definition cleaned_of (df_full : frame) : result frame :=
  amount <- amount_series df_full ;;
  selected <- select_frame df_full amount ;;
  clean (normalize_dates selected).

Definition results_of (df_full : frame) : result frame :=
  cleaned <- cleaned_of df_full ;;
  flagged <- build_results cleaned ;;
  ret (snd flagged).

(** [analyze_je]: [except Exception as e] turns every exception raised in
    the body into a failure response. *)
Definition analyze_je (df_full : frame) : response :=
  match analyze_body df_full with
  | inr p => Success p
  | inl e => Failure e
  end.

End Pipeline.

(** ** Statements used by the properties below *)

(** Neither a debit/credit pair nor an amount column resolves. *)
Definition no_amount_column (df_full : frame) : Prop :=
  (debit_candidates df_full = [] \/ credit_candidates df_full = [])
  /\ amount_candidates df_full = [].

Definition mask_and (m1 m2 : list bool) : list bool :=
  map (fun p => fst p && snd p) (combine m1 m2).

(** [row[name]] for a row of [to_dicts]: [None] when the row has no such
    key. *)
Fixpoint row_get (name : string) (row : list (string * cell)) : option cell :=
  match row with
  | [] => None
  | (n, c) :: rest => if String.eqb n name then Some c else row_get name rest
  end.

Definition is_null (c : cell) : bool :=
  match c with CNull => true | _ => false end.

(** The test a row has to pass to survive the Row Cleaner, read off the row
    alone: its amount is not null and, when the row has a posting date,
    the posting date is not null. *)
Definition row_survives (row : list (string * cell)) : bool :=
  match row_get "amount" row with
  | Some a =>
      negb (is_null a)
      && match row_get "posting_date" row with
         | Some d => negb (is_null d)
         | None => true
         end
  | None => false
  end.

(** The columns of a table as plain lists of cells, and the rows that [n]
    positions of such columns make up. *)
Definition cells_of (df : frame) : list (string * list cell) :=
  map (fun c => (fst c, series_cells (snd c))) df.

Definition rows_of (n : nat) (cols : list (string * list cell))
  : list (list (string * cell)) :=
  map (fun i => map (fun c => (fst c, nth i (snd c) CNull)) cols) (seq 0 n).

(** Cleaning that looks at the posting date only. *)
Definition date_only_clean (selected : frame) : result frame :=
  if has_column "posting_date" selected then
    d <- get_column "posting_date" selected ;;
    ret (filter_frame (is_not_null d) selected)
  else ret selected.


(** [x >= y] between two floats, stated on the rationals: the usual order
    on the numbers, minus infinity below and plus infinity above them, and,
    as polars has it, a NaN at or above everything and nothing but a NaN at
    or above a NaN. *)
Definition at_or_above (x y : F64.t) : Prop :=
  match x, y with
  | F64.NaN, _ => True
  | _, F64.NaN => False
  | F64.PInf, _ => True
  | _, F64.NInf => True
  | F64.Fin a, F64.Fin b => b <= a
  | _, _ => False
  end.


Definition all_len (n : nat) (df : frame) : Prop :=
  Forall (fun c => series_len (snd c) = n) df.

(** The column names a selected table can have. *)
Definition canonical_names : list string :=
  "amount"%string :: "posting_date"%string :: map snd key_fields.

(** The flags whose name contains "Entry". *)
Definition entry_flags : list string :=
  [ "Weekend Entry"; "Duplicate Entry"; "High-Value Entry"; "Repeating Entry" ]%string.

(** ** Further statements and the export endpoint *)

Section Further.

Local Open Scope string_scope.

(** The test of the candidate comprehensions: the lower-cased column name
    contains one of the role's tokens. *)
Definition role_matches (tokens : list string) (c : string) : bool :=
  existsb (fun tok => Str.contains tok (Str.lower c)) tokens.

(** Number of occurrences of a character. *)
Fixpoint count_char (c : ascii) (s : string) : nat :=
  match s with
  | EmptyString => 0
  | String d r => (if Ascii.eqb c d then 1 else 0) + count_char c r
  end.

(** The value a debit or credit cell contributes when every comma is
    stripped before parsing. *)
Definition comma_free_value (pl : polars) (c : option string) : option F64.t :=
  Some match c with
       | Some s =>
           match str_to_f64 pl (Str.remove_char "," s) with
           | Some v => v
           | None => F64.zero
           end
       | None => F64.zero
       end.

(** A sum of absolute values: not negative, not minus infinity. *)
Definition abs_like (x : F64.t) : Prop :=
  match x with
  | F64.Fin t => 0 <= t
  | F64.NInf => False
  | _ => True
  end.

Definition is_utf8 (s : series) : bool :=
  match s with SUtf8 _ => true | _ => false end.

Definition is_datetime (s : series) : bool :=
  match s with SDatetime _ => true | _ => false end.

(** The column that resolves a role has an allowed dtype, or no column
    resolves the role. *)
Definition role_dtype (allowed : series -> bool) (tokens : list string)
    (df_full : frame) : bool :=
  match candidates tokens df_full with
  | c :: _ =>
      match get_column c df_full with
      | inr s => allowed s
      | inl _ => false
      end
  | [] => true
  end.

(** The named column has an allowed dtype, or the table has no such
    column. *)
Definition column_dtype (allowed : series -> bool) (name : string) (df : frame)
  : bool :=
  match get_column name df with
  | inr s => allowed s
  | inl _ => true
  end.

(** The dtypes the rules can work with: a date column of strings or
    datetimes, a description column of strings. *)
Definition dtypes_supported (df_full : frame) : bool :=
  role_dtype (fun s => is_utf8 s || is_datetime s)
             ["date"; "effective"; "posted"]%string df_full
  && role_dtype is_utf8 ["description"%string] df_full.

(** ** Decoding and the export endpoint ([export_report]) *)

(** [s.endswith(suffix)] *)
Fixpoint endswith (suffix s : string) : bool :=
  String.eqb s suffix ||
  match s with
  | EmptyString => false
  | String _ r => endswith suffix r
  end.

(** The decoder an endpoint hands the uploaded bytes to. *)
Inductive reader : Type :=
| ReadExcel
| ReadCsv.

(** Lines 17-20. *)
Definition analyze_reader (filename : string) : reader :=
  if endswith ".xlsx" filename || endswith ".xls" filename
  then ReadExcel else ReadCsv.

(** Lines 201-204. *)
Definition export_reader (filename : string) : reader :=
  if endswith ".xlsx" filename then ReadExcel else ReadCsv.

Definition head_series (n : nat) (s : series) : series :=
  match s with
  | SUtf8 xs => SUtf8 (firstn n xs)
  | SInt64 xs => SInt64 (firstn n xs)
  | SFloat64 xs => SFloat64 (firstn n xs)
  | SBoolean xs => SBoolean (firstn n xs)
  | SDatetime xs => SDatetime (firstn n xs)
  end.

(** [df.head(n)] *)
Definition head (n : nat) (df : frame) : frame :=
  map (fun c => (fst c, head_series n (snd c))) df.

(** A workbook: its sheets in the order they are written. *)
Definition workbook : Type := list (string * frame).

Definition summary_sheet (df : frame) : frame :=
  [ ("Metric", SUtf8 [Some "Total Entries"]);
    ("Value", SInt64 [Some (Z.of_nat (height df))]) ]%string.

(** Lines 209-223: the sheets written for the decoded table. *)
Definition export_sheets (df : frame) : workbook :=
  ("All Transactions"%string, df)
  :: ("Summary"%string, summary_sheet df)
  :: (if has_column "Amount" df then
        let sample_anomalies := head 50 df in
        [ ("Anomalies"%string,
           with_column "Anomaly"
             (SUtf8 (repeat (Some "Round Amount"%string) (height sample_anomalies)))
             sample_anomalies) ]
      else []).

(** Number of rows where a nullable boolean column is true. *)
Definition count_true (b : list (option bool)) : nat :=
  List.length (filter (fun o => match o with Some true => true | _ => false end) b).

(** Where the second column is true the first one is true. *)
Definition implies_true (hv bv : option bool) : Prop :=
  bv = Some true -> hv = Some true.

End Further.

(** ** A reference instance of the library functions

    Enough of polars to run the pipeline on concrete tables: plain decimal
    numbers (optional sign, digits, optional fraction), fixed-width date
    fields, nearest-rank quantiles. *)
Module Reference.

Local Open Scope string_scope.
Local Open Scope Z_scope.

Definition digit_of (c : ascii) : option Z :=
  let n := nat_of_ascii c in
  if Nat.leb 48 n && Nat.leb n 57 then Some (Z.of_nat (n - 48)) else None.

(** Digits with at most one decimal point: mantissa and power of ten of the
    fraction, [None] on any other character or when no digit was read. *)
Fixpoint parse_unsigned (s : string) (mant scale : Z) (dot any : bool)
  : option Q :=
  match s with
  | EmptyString => if any then Some (Qmake mant (Z.to_pos scale)) else None
  | String c r =>
      match digit_of c with
      | Some d =>
          parse_unsigned r (mant * 10 + d) (if dot then scale * 10 else scale) dot true
      | None =>
          if Ascii.eqb c "." && negb dot
          then parse_unsigned r mant scale true any
          else None
      end
  end.

Definition parse_decimal (s : string) : option F64.t :=
  match s with
  | String "-" r => option_map (fun q => F64.round (- q)%Q) (parse_unsigned r 0 1 false false)
  | String "+" r => option_map F64.round (parse_unsigned r 0 1 false false)
  | _ => option_map F64.round (parse_unsigned s 0 1 false false)
  end.

Definition pad2 (z : Z) : string :=
  if Z.ltb z 10 then "0" ++ int_to_str z else int_to_str z.

Fixpoint fraction_digits (n : nat) (q : Q) : string :=
  match n with
  | O => ""
  | S m =>
      let q10 := Qred (q * 10)%Q in
      let d := Qfloor q10 in
      let r := Qred (q10 - inject_Z d)%Q in
      int_to_str d ++ (if Qeq_bool r 0 then "" else fraction_digits m r)
  end.

Definition render_f64 (x : F64.t) : string :=
  match x with
  | F64.Fin q =>
      let a := Qabs q in
      let i := Qfloor a in
      (if F64.Qlt_bool q 0 then "-" else "")
        ++ int_to_str i ++ "." ++ fraction_digits 17 (Qred (a - inject_Z i)%Q)
  | F64.PInf => "inf"
  | F64.NInf => "-inf"
  | F64.NaN => "NaN"
  end.

(** Days since 1970-01-01 of a proleptic Gregorian date. *)
Definition days_from_civil (y m d : Z) : Z :=
  let y := if Z.leb m 2 then y - 1 else y in
  let era := y / 400 in
  let yoe := y - era * 400 in
  let mp := if Z.ltb 2 m then m - 3 else m + 9 in
  let doy := (153 * mp + 2) / 5 + d - 1 in
  let doe := yoe * 365 + yoe / 4 - yoe / 100 + doy in
  era * 146097 + doe - 719468.

Definition civil_from_days (z : Z) : Z * Z * Z :=
  let z := z + 719468 in
  let era := z / 146097 in
  let doe := z - era * 146097 in
  let yoe := (doe - doe / 1460 + doe / 36524 - doe / 146096) / 365 in
  let doy := doe - (365 * yoe + yoe / 4 - yoe / 100) in
  let mp := (5 * doy + 2) / 153 in
  let d := doy - (153 * mp + 2) / 5 + 1 in
  let m := if Z.ltb mp 10 then mp + 3 else mp - 9 in
  let y := yoe + era * 400 in
  (if Z.leb m 2 then y + 1 else y, m, d).

Definition us_per_day : Z := 86400000000.

Definition render_datetime (us : Z) : string :=
  let '(y, m, d) := civil_from_days (us / us_per_day) in
  let s := (us mod us_per_day) / 1000000 in
  int_to_str y ++ "-" ++ pad2 m ++ "-" ++ pad2 d ++ " "
    ++ pad2 (s / 3600) ++ ":" ++ pad2 ((s / 60) mod 60) ++ ":" ++ pad2 (s mod 60).

Fixpoint take_digits (n : nat) (s : string) (acc : Z) : option (Z * string) :=
  match n with
  | O => Some (acc, s)
  | S m =>
      match s with
      | String c r =>
          match digit_of c with
          | Some d => take_digits m r (acc * 10 + d)
          | None => None
          end
      | EmptyString => None
      end
  end.

Definition month_names : list string :=
  [ "january"; "february"; "march"; "april"; "may"; "june"; "july";
    "august"; "september"; "october"; "november"; "december" ].

Definition short_name (s : string) : string := substring 0 3 s.

(** The first month (1-12) whose name, as given by [f], starts the text. *)
Fixpoint take_month (f : string -> string) (names : list string) (k : Z) (s : string)
  : option (Z * string) :=
  match names with
  | [] => None
  | name :: rest =>
      if prefix (f name) (Str.lower s)
      then Some (k, Str.drop (String.length (f name)) s)
      else take_month f rest (k + 1) s
  end.

Record date_fields : Type := Fields {
  f_year : option Z;
  f_month : option Z;
  f_day : option Z
}.

Fixpoint parse_fields (fmt text : string) (acc : date_fields) : option date_fields :=
  match fmt with
  | EmptyString =>
      match text with EmptyString => Some acc | _ => None end
  | String "%" (String d rest) =>
      let step (r : option (Z * string)) (upd : Z -> date_fields) :=
        match r with
        | Some (v, text') => parse_fields rest text' (upd v)
        | None => None
        end in
      if Ascii.eqb d "Y" then
        step (take_digits 4 text 0) (fun v => Fields (Some v) (f_month acc) (f_day acc))
      else if Ascii.eqb d "y" then
        step (take_digits 2 text 0)
             (fun v => Fields (Some (if Z.ltb v 69 then 2000 + v else 1900 + v))
                              (f_month acc) (f_day acc))
      else if Ascii.eqb d "m" then
        step (take_digits 2 text 0) (fun v => Fields (f_year acc) (Some v) (f_day acc))
      else if Ascii.eqb d "d" then
        step (take_digits 2 text 0) (fun v => Fields (f_year acc) (f_month acc) (Some v))
      else if Ascii.eqb d "b" then
        step (take_month short_name month_names 1 text)
             (fun v => Fields (f_year acc) (Some v) (f_day acc))
      else if Ascii.eqb d "B" then
        step (take_month (fun s => s) month_names 1 text)
             (fun v => Fields (f_year acc) (Some v) (f_day acc))
      else None
  | String c rest =>
      match text with
      | String c' text' => if Ascii.eqb c c' then parse_fields rest text' acc else None
      | EmptyString => None
      end
  end.

Definition is_leap (y : Z) : bool :=
  Z.eqb (y mod 4) 0 && (negb (Z.eqb (y mod 100) 0) || Z.eqb (y mod 400) 0).

Definition days_in_month (y m : Z) : Z :=
  if Z.eqb m 2 then (if is_leap y then 29 else 28)
  else if Z.eqb m 4 || Z.eqb m 6 || Z.eqb m 9 || Z.eqb m 11 then 30 else 31.

Definition parse_datetime (fmt text : string) : option Z :=
  match parse_fields fmt text (Fields None None None) with
  | Some (Fields (Some y) (Some m) (Some d)) =>
      if Z.leb 1 m && Z.leb m 12 && Z.leb 1 d && Z.leb d (days_in_month y m)
      then Some (days_from_civil y m d * us_per_day)
      else None
  | _ => None
  end.

Fixpoint insert_sorted (x : F64.t) (xs : list F64.t) : list F64.t :=
  match xs with
  | [] => [x]
  | y :: ys => if F64.leb x y then x :: xs else y :: insert_sorted x ys
  end.

Definition sort (xs : list F64.t) : list F64.t :=
  fold_right insert_sorted [] xs.

(** Nearest-rank quantile: the element at index [round((n - 1) * q)] of the
    sorted values, a NaN sorting after every number. *)
Definition nearest_quantile (q : Q) (xs : list F64.t) : F64.t :=
  let n := Z.of_nat (List.length xs) in
  let idx := Qfloor (inject_Z (n - 1) * q + (1 # 2))%Q in
  nth (Z.to_nat idx) (sort xs) F64.NaN.

Definition reference_polars : polars :=
  Polars parse_decimal render_f64 render_datetime parse_datetime nearest_quantile.

End Reference.

(** ** Running the pipeline *)
Module Scenarios.

Import Reference.
Local Open Scope string_scope.
Local Open Scope Z_scope.

Definition utf8 (xs : list string) : series := SUtf8 (map Some xs).

(** The first scenario of the specification. *)
Definition weekend_table : frame :=
  [ ("Debit", SInt64 [Some 100; Some 0]);
    ("Credit", SInt64 [Some 0; Some 50]);
    ("Date", utf8 ["2024-01-06"; "2024-01-07"]);
    ("Description", utf8 ["misc"; "rent"]) ].

(** One row whose only true flag is Near-Zero Amount. *)
Definition near_zero_table : frame :=
  [ ("Amount", utf8 ["0.5"]) ].

(** One row whose only true flag is Suspicious Description. *)
Definition suspicious_table : frame :=
  [ ("Amount", utf8 ["500.5"]); ("Description", utf8 ["misc"]) ].

(** One row whose only true flag is Round Large Amount. *)
Definition round_large_table : frame :=
  [ ("Amount", utf8 ["5000"]) ].

(** A debit cell with two thousands separators. *)
Definition comma_table : frame :=
  [ ("Debit", utf8 ["1,234,567"]); ("Credit", utf8 ["0"]) ].

(** A date column that was decoded as integers, as a CSV reader does for
    compact [YYYYMMDD] dates. *)
Definition int_date_table : frame :=
  [ ("Amount", SInt64 [Some 100]); ("Date", SInt64 [Some 20240106]) ].




(** Eleven amounts with one outlier. *)
Definition outlier_table : frame :=
  [ ("Amount", utf8 ["10.5"; "11.5"; "12.5"; "13.5"; "14.5"; "15.5";
                     "16.5"; "17.5"; "18.5"; "19.5"; "900000.5"]) ].

(** A null amount, a date in another format and a good row. *)
Definition dirty_table : frame :=
  [ ("Amount", utf8 ["12.5"; "oops"; "40.25"; "8.75"]);
    ("Posting Date", utf8 ["2024-03-04"; "2024-03-05"; "03/06/2024"; "2024-03-07"]) ].

(** [dirty_table] after selection and date parsing. *)
Definition dirty_selected : frame :=
  [ ("amount", SFloat64 [Some (F64.Fin (25 # 2)); None;
                         Some (F64.Fin (161 # 4)); Some (F64.Fin (35 # 4))]);
    ("posting_date", SDatetime [Some 1709510400000000; Some 1709596800000000;
                                None; Some 1709769600000000]) ].

(** [dirty_selected] after cleaning: the first and the last row. *)
Definition dirty_cleaned : frame :=
  [ ("amount", SFloat64 [Some (F64.Fin (25 # 2)); Some (F64.Fin (35 # 4))]);
    ("posting_date", SDatetime [Some 1709510400000000; Some 1709769600000000]) ].

(** [outlier_table] after cleaning. *)
Definition outlier_amounts : list (option F64.t) :=
  map (fun q => Some (F64.Fin q))
      [ 21 # 2; 23 # 2; 25 # 2; 27 # 2; 29 # 2; 31 # 2; 33 # 2; 35 # 2;
        37 # 2; 39 # 2; 1800001 # 2 ]%Q.

Definition outlier_cleaned : frame :=
  [ ("amount", SFloat64 outlier_amounts) ].

(** Eleven cleaned amounts, one of them not a number. *)
Definition nan_amounts : list (option F64.t) :=
  map Some
      [ F64.Fin (21 # 2); F64.Fin (23 # 2); F64.Fin (25 # 2); F64.NaN;
        F64.Fin (29 # 2); F64.Fin (31 # 2); F64.Fin (33 # 2); F64.Fin (35 # 2);
        F64.Fin (37 # 2); F64.Fin (39 # 2); F64.Fin (1800001 # 2) ]%Q.

Definition nan_cleaned : frame :=
  [ ("amount", SFloat64 nan_amounts) ].

End Scenarios.

(** The flagged result set of [weekend_table]. *)
Definition weekend_results : frame :=
  match results_of Reference.reference_polars Scenarios.weekend_table with
  | inr results => results
  | inl _ => []
  end.

(** * Properties *)

Import Scenarios Reference.
Local Open Scope string_scope.

(** ** Float arithmetic *)

Lemma threshold_above_100 : 100 < F64.overflow_threshold.
Proof. vm_compute. reflexivity. Qed.


Lemma round_fin_inv (q x : Q) :
  F64.round q = F64.Fin x ->
  x = Qred q /\ - F64.overflow_threshold < q /\ q < F64.overflow_threshold.
Proof.
  unfold F64.round.
  destruct (Qle_bool F64.overflow_threshold q) eqn:E1; [discriminate|].
  destruct (Qle_bool q (- F64.overflow_threshold)) eqn:E2; [discriminate|].
  intros H. inversion H. repeat split.
  - apply Qnot_le_lt. intros C. apply Qle_bool_iff in C. congruence.
  - apply Qnot_le_lt. intros C. apply Qle_bool_iff in C. congruence.
Qed.


Lemma round_ninf_inv (q : Q) :
  F64.round q = F64.NInf -> q <= - F64.overflow_threshold.
Proof.
  unfold F64.round.
  destruct (Qle_bool F64.overflow_threshold q); [discriminate|].
  destruct (Qle_bool q (- F64.overflow_threshold)) eqn:E; [|discriminate].
  intros _. now apply Qle_bool_iff.
Qed.

(** ** Columns and amount reconciliation *)

Lemma get_column_in (name : string) (df : frame) :
  In name (columns df) -> exists s, get_column name df = inr s /\ In (name, s) df.
Proof.
  induction df as [|[n s] rest IH]; simpl; [tauto|].
  intros H. destruct (String.eqb n name) eqn:E.
  - apply String.eqb_eq in E. subst. eauto.
  - destruct H as [H|H]; [subst; rewrite String.eqb_refl in E; discriminate|].
    destruct (IH H) as (s' & Hs & Hin). eauto.
Qed.

Lemma candidates_in (tokens : list string) (df : frame) (c : string) :
  In c (candidates tokens df) -> In c (columns df).
Proof. unfold candidates. rewrite filter_In. tauto. Qed.

Lemma first_candidate (tokens : list string) (df : frame) (c : string) rest :
  candidates tokens df = c :: rest ->
  exists s, get_column c df = inr s /\ In (c, s) df.
Proof.
  intros H. apply get_column_in, (candidates_in tokens). rewrite H. now left.
Qed.

Lemma has_column_in (name : string) (df : frame) :
  has_column name df = true <-> In name (columns df).
Proof.
  unfold has_column. rewrite existsb_exists. split.
  - intros (x & Hx & E). apply String.eqb_eq in E. now subst.
  - intros H. exists name. split; [assumption|apply String.eqb_refl].
Qed.

Lemma amount_series_pair (pl : polars) (df_full : frame) dr_col drs cr_col crs :
  debit_candidates df_full = dr_col :: drs ->
  credit_candidates df_full = cr_col :: crs ->
  exists dr cr,
    get_column dr_col df_full = inr dr
    /\ get_column cr_col df_full = inr cr
    /\ amount_series pl df_full =
         inr (series_sub (money_column pl dr) (money_column pl cr)).
Proof.
  intros Hd Hc.
  destruct (first_candidate _ _ Hd) as (dr & Hdr & _).
  destruct (first_candidate _ _ Hc) as (cr & Hcr & _).
  exists dr, cr. repeat split; try assumption.
  unfold amount_series. rewrite Hd, Hc, Hdr. simpl. rewrite Hcr. reflexivity.
Qed.

Lemma amount_series_single (pl : polars) (df_full : frame) amt_col rest :
  debit_candidates df_full = [] \/ credit_candidates df_full = [] ->
  amount_candidates df_full = amt_col :: rest ->
  exists s,
    get_column amt_col df_full = inr s
    /\ amount_series pl df_full = inr (cast_f64 pl s).
Proof.
  intros Hno Ha.
  destruct (first_candidate _ _ Ha) as (s & Hs & _).
  exists s. split; [assumption|].
  unfold amount_series. rewrite Ha, Hs.
  destruct Hno as [-> | ->]; [|destruct (debit_candidates df_full)]; reflexivity.
Qed.

Lemma money_column_length (pl : polars) (s : series) :
  List.length (money_column pl s) = series_len s.
Proof.
  unfold money_column, fill_null, str_replace, series_len. simpl.
  rewrite !length_map. destruct s; simpl; now rewrite ?length_map.
Qed.

Lemma cast_utf8_length (pl : polars) (s : series) :
  List.length (cast_utf8 pl s) = series_len s.
Proof. unfold series_len. destruct s; simpl; now rewrite !length_map. Qed.








(** C3.  Every comma of a debit or credit cell should be stripped before
    the cell is parsed.  [str.replace] rewrites the first comma only: the
    cell "1,234,567" becomes "1234,567", which is not a number, and the
    reconciled amount is 0.0 where the comma-free value is 1234567. *)
Theorem second_comma_zeroes_the_amount :
  Str.replace "," "" "1,234,567" = "1234,567"
  /\ amount_series reference_polars comma_table = inr [Some (F64.Fin 0)]
  /\ parse_decimal (Str.remove_char "," "1,234,567") = Some (F64.Fin 1234567).
Proof. repeat split; vm_compute; reflexivity. Qed.

(** ** Failure responses *)

Lemma amount_series_cases (pl : polars) (df_full : frame) :
  (no_amount_column df_full
   /\ amount_series pl df_full =
        inl (HTTPException 400
               "No amount column found (looked for 'amount', 'debit', 'credit')"))
  \/ (~ no_amount_column df_full /\ exists a, amount_series pl df_full = inr a).
Proof.
  unfold no_amount_column.
  destruct (debit_candidates df_full) as [|dr drs] eqn:Hd.
  - destruct (amount_candidates df_full) as [|am ams] eqn:Ha.
    + left. split; [tauto|]. unfold amount_series. rewrite Hd, Ha. reflexivity.
    + right. split; [intros [_ H]; discriminate|].
      destruct (amount_series_single pl df_full (rest:=ams) (amt_col:=am)) as (s & _ & H);
        auto. eauto.
  - destruct (credit_candidates df_full) as [|cr crs] eqn:Hc.
    + destruct (amount_candidates df_full) as [|am ams] eqn:Ha.
      * left. split; [tauto|]. unfold amount_series. rewrite Hd, Hc, Ha. reflexivity.
      * right. split; [intros [_ H]; discriminate|].
        destruct (amount_series_single pl df_full (rest:=ams) (amt_col:=am)) as (s & _ & H);
          auto. eauto.
    + right. split; [intros [[H|H] _]; discriminate|].
      destruct (amount_series_pair pl df_full Hd Hc) as (a & b & _ & _ & H). eauto.
Qed.

(** C9.  The endpoint answers with a failure exactly when the table is
    empty, when no amount-bearing column resolves, or when a later stage
    raises; a response is either a success payload or an error, never both,
    and every table gets a response. *)
Theorem failure_exactly_when (pl : polars) (df_full : frame) :
  (forall e,
      analyze_je pl df_full = Failure e <->
        (height df_full = 0%nat /\ e = HTTPException 400 "File is empty")
        \/ (height df_full <> 0%nat /\ no_amount_column df_full
            /\ e = HTTPException 400
                     "No amount column found (looked for 'amount', 'debit', 'credit')")
        \/ (height df_full <> 0%nat
            /\ exists a, amount_series pl df_full = inr a
                         /\ analyze_rest pl df_full a = inl e))
  /\ (forall p,
      analyze_je pl df_full = Success p <->
        height df_full <> 0%nat
        /\ exists a, amount_series pl df_full = inr a
                     /\ analyze_rest pl df_full a = inr p)
  /\ ((exists p, analyze_je pl df_full = Success p)
      \/ (exists e, analyze_je pl df_full = Failure e)).
Proof.
  unfold analyze_je, analyze_body.
  destruct (Nat.eqb (height df_full) 0) eqn:Hh.
  - apply Nat.eqb_eq in Hh.
    split; [intros e; split | split; [intros p; split |]].
    + intros H. inversion H. left. auto.
    + intros [[_ ->] | [(Hn & _) | (Hn & _)]]; try contradiction. reflexivity.
    + intros H. discriminate H.
    + intros (Hn & _). contradiction.
    + right. eexists. reflexivity.
  - apply Nat.eqb_neq in Hh.
    destruct (amount_series_cases pl df_full) as [(Hno & ->) | (Hyes & a & ->)]; simpl.
    + split; [intros e; split | split; [intros p; split |]].
      * intros H. inversion H. right. left. auto.
      * intros [[Hz _] | [(_ & _ & ->) | (_ & a & Ha & _)]];
          [contradiction | reflexivity | discriminate].
      * intros H. discriminate H.
      * intros (_ & a & Ha & _). discriminate.
      * right. eexists. reflexivity.
    + destruct (analyze_rest pl df_full a) as [e0 | p0] eqn:Hr;
        (split; [intros e; split | split; [intros p; split |]]).
      * intros H. inversion H. subst. right. right. eauto.
      * intros [[Hz _] | [(_ & Hno & _) | (_ & a' & Ha & He)]];
          [contradiction | contradiction |].
        inversion Ha. subst. rewrite Hr in He. inversion He. reflexivity.
      * intros H. discriminate H.
      * intros (_ & a' & Ha & He). inversion Ha. subst. rewrite Hr in He. discriminate.
      * right. eexists. reflexivity.
      * intros H. discriminate H.
      * intros [[Hz _] | [(_ & Hno & _) | (_ & a' & Ha & He)]];
          [contradiction | contradiction |].
        inversion Ha. subst. rewrite Hr in He. discriminate.
      * intros H. inversion H. subst. eauto.
      * intros (_ & a' & Ha & He). inversion Ha. subst. rewrite Hr in He.
        inversion He. reflexivity.
      * left. eexists. reflexivity.
Qed.

(** ** Date normalisation *)

Lemma get_column_some (name : string) (df : frame) (s : series) :
  get_column name df = inr s -> In (name, s) df.
Proof.
  induction df as [|[n t] rest IH]; simpl; [discriminate|].
  destruct (String.eqb n name) eqn:E.
  - apply String.eqb_eq in E. intros H. inversion H. subst. now left.
  - intros H. right. auto.
Qed.

Lemma get_column_has (name : string) (df : frame) (s : series) :
  get_column name df = inr s -> has_column name df = true.
Proof.
  intros H. apply has_column_in. apply get_column_some in H.
  unfold columns. change name with (fst (name, s)). now apply in_map.
Qed.

Lemma columns_with_column_old (name : string) (s : series) (df : frame) :
  In name (columns df) -> columns (with_column name s df) = columns df.
Proof.
  induction df as [|[n old] rest IH]; simpl; [tauto|].
  intros H. destruct (String.eqb n name) eqn:E; [reflexivity|].
  simpl. f_equal. apply IH. destruct H as [H|H]; [|assumption].
  subst. rewrite String.eqb_refl in E. discriminate.
Qed.

Lemma try_formats_parsed (pl : polars) (fmts : list string) :
  forall parsed selected,
    parsed <> None \/ fmts <> [] ->
    fst (try_formats pl fmts parsed selected) <> None.
Proof.
  induction fmts as [|fmt rest IH]; intros parsed selected H; cbn [try_formats].
  - destruct H as [H|H]; [assumption|congruence].
  - destruct (eval_expr pl (StrptimeExpr "posting_date" fmt) selected); simpl.
    + apply IH. left. discriminate.
    + discriminate.
Qed.

(** On a string column the first format of the list is adopted for the
    whole column: with [strict=False] its evaluation cannot raise. *)
Lemma normalize_dates_utf8 (pl : polars) (selected : frame) xs :
  get_column "posting_date" selected = inr (SUtf8 xs) ->
  normalize_dates pl selected =
    with_column "posting_date"
      (SDatetime (map (opt_bind (strptime pl "%Y-%m-%d")) xs)) selected.
Proof.
  intros H. unfold normalize_dates.
  rewrite (get_column_has _ _ H).
  unfold date_formats. cbn [try_formats eval_expr]. rewrite H. reflexivity.
Qed.

(** On a column of any other dtype every format raises, and the column is
    kept as it is: [parsed] was assigned before each failed evaluation. *)
Lemma normalize_dates_not_utf8 (pl : polars) (selected : frame) s :
  get_column "posting_date" selected = inr s ->
  (forall xs, s <> SUtf8 xs) ->
  normalize_dates pl selected = selected.
Proof.
  intros H Hs. unfold normalize_dates.
  rewrite (get_column_has _ _ H).
  unfold date_formats. cbn [try_formats eval_expr]. rewrite H.
  destruct s; try reflexivity. exfalso. eapply Hs. reflexivity.
Qed.

Lemma normalize_dates_no_date (pl : polars) (selected : frame) :
  has_column "posting_date" selected = false ->
  normalize_dates pl selected = selected.
Proof. intros H. unfold normalize_dates. rewrite H. reflexivity. Qed.

(** The two outcomes of date normalisation: the table is unchanged, or its
    string date column was parsed with the first format. *)
Lemma normalize_dates_cases (pl : polars) (selected : frame) :
  normalize_dates pl selected = selected
  \/ exists xs,
       In ("posting_date", SUtf8 xs) selected
       /\ normalize_dates pl selected =
            with_column "posting_date"
              (SDatetime (map (opt_bind (strptime pl "%Y-%m-%d")) xs)) selected.
Proof.
  destruct (has_column "posting_date" selected) eqn:Hh.
  - destruct (get_column_in "posting_date" selected) as (s & Hs & Hin).
    { now apply has_column_in. }
    destruct s;
      try (left; apply (normalize_dates_not_utf8 pl _ Hs); discriminate).
    right. exists xs. split; [assumption|]. now apply normalize_dates_utf8.
  - left. now apply normalize_dates_no_date.
Qed.

(** The date role is never dropped. *)
Lemma normalize_dates_columns (pl : polars) (selected : frame) :
  columns (normalize_dates pl selected) = columns selected.
Proof.
  destruct (normalize_dates_cases pl selected) as [-> | (xs & Hin & ->)];
    [reflexivity|].
  apply columns_with_column_old. unfold columns.
  change "posting_date" with (fst ("posting_date", SUtf8 xs)). now apply in_map.
Qed.

(** C5.  When no format can be evaluated on the date column the date role
    should be dropped and the request should go on.  For a date column of
    integers every format raises; the column is kept with its integer
    dtype, the weekend rule then raises on it and the request fails. *)
Theorem unparsed_date_column_is_kept :
  (exists amount selected,
      amount_series reference_polars int_date_table = inr amount
      /\ select_frame int_date_table amount = inr selected
      /\ try_formats reference_polars date_formats None selected =
           (Some (StrptimeExpr "posting_date" "%m-%d-%Y"), selected)
      /\ normalize_dates reference_polars selected =
           [ ("amount", SFloat64 [Some (F64.Fin 100)]);
             ("posting_date", SInt64 [Some 20240106%Z]) ])
  /\ analyze_je reference_polars int_date_table =
       Failure (PolarsError (WrongDtype "dt.weekday")).
Proof.
  split.
  - do 2 eexists. repeat split; vm_compute; reflexivity.
  - vm_compute. reflexivity.
Qed.

(** ** Row cleaning *)

Lemma filter_mask_nil {A} (mask : list bool) : filter_mask mask (@nil A) = [].
Proof. destruct mask as [|[] ?]; reflexivity. Qed.

Lemma filter_mask_map {A B} (f : A -> B) (mask : list bool) :
  forall xs, filter_mask mask (map f xs) = map f (filter_mask mask xs).
Proof.
  induction mask as [|b mask IH]; intros [|x xs]; simpl; try reflexivity.
  destruct b; simpl; now rewrite IH.
Qed.

Lemma filter_mask_length {A} (mask : list bool) :
  forall xs : list A, (List.length (filter_mask mask xs) <= List.length xs)%nat.
Proof.
  induction mask as [|b mask IH]; intros [|x xs]; simpl; try lia.
  specialize (IH xs). destruct b; simpl; lia.
Qed.

Lemma filter_mask_twice {A} (m1 : list bool) :
  forall (m2 : list bool) (xs : list A),
    filter_mask (filter_mask m1 m2) (filter_mask m1 xs) =
    filter_mask (mask_and m1 m2) xs.
Proof.
  unfold mask_and.
  induction m1 as [|b m1 IH]; intros m2 xs; simpl.
  - reflexivity.
  - destruct b, m2 as [|c m2], xs as [|x xs]; simpl;
      rewrite ?filter_mask_nil; try reflexivity.
    + destruct c; now rewrite IH.
    + apply IH.
Qed.

Lemma filter_mask_all_true {A} (xs : list A) :
  filter_mask (repeat true (List.length xs)) xs = xs.
Proof. induction xs; simpl; congruence. Qed.

Lemma is_not_null_filter (mask : list bool) (s : series) :
  is_not_null (filter_series mask s) = filter_mask mask (is_not_null s).
Proof. destruct s; simpl; now rewrite filter_mask_map. Qed.

Lemma filter_series_twice (m1 m2 : list bool) (s : series) :
  filter_series (filter_mask m1 m2) (filter_series m1 s) =
  filter_series (mask_and m1 m2) s.
Proof. destruct s; simpl; now rewrite filter_mask_twice. Qed.

Lemma filter_frame_twice (m1 m2 : list bool) (df : frame) :
  filter_frame (filter_mask m1 m2) (filter_frame m1 df) =
  filter_frame (mask_and m1 m2) df.
Proof.
  unfold filter_frame. rewrite map_map. apply map_ext.
  intros [n s]. simpl. now rewrite filter_series_twice.
Qed.

Lemma columns_filter_frame (mask : list bool) (df : frame) :
  columns (filter_frame mask df) = columns df.
Proof. unfold columns, filter_frame. rewrite map_map. reflexivity. Qed.

Lemma has_column_filter_frame (name : string) (mask : list bool) (df : frame) :
  has_column name (filter_frame mask df) = has_column name df.
Proof. unfold has_column. now rewrite columns_filter_frame. Qed.

Lemma get_column_filter_frame (name : string) (mask : list bool) (df : frame) :
  get_column name (filter_frame mask df) =
  (s <- get_column name df ;; ret (filter_series mask s)).
Proof.
  induction df as [|[n s] rest IH]; simpl; [reflexivity|].
  destruct (String.eqb n name); [reflexivity|apply IH].
Qed.

Lemma series_len_filter (mask : list bool) (s : series) :
  (series_len (filter_series mask s) <= series_len s)%nat.
Proof.
  unfold series_len.
  destruct s; simpl; rewrite !length_map; apply filter_mask_length.
Qed.

Lemma height_filter_frame (mask : list bool) (df : frame) :
  (height (filter_frame mask df) <= height df)%nat.
Proof. destruct df as [|[n s] rest]; simpl; [lia|apply series_len_filter]. Qed.

Lemma filter_mask_length_eq {A B} (mask : list bool) :
  forall (xs : list A) (ys : list B),
    List.length xs = List.length ys ->
    List.length (filter_mask mask xs) = List.length (filter_mask mask ys).
Proof.
  induction mask as [|b mask IH]; intros [|x xs] [|y ys] H; simpl in *;
    try reflexivity; try discriminate.
  destruct b; simpl; auto.
Qed.

Lemma filter_mask_filter {A} (f : A -> bool) (xs : list A) :
  filter_mask (map f xs) xs = filter f xs.
Proof.
  induction xs as [|x xs IH]; simpl; [reflexivity|].
  destruct (f x); now rewrite IH.
Qed.

Lemma map_nth_seq {A} (d : A) (l : list A) :
  map (fun i => nth i l d) (seq 0 (List.length l)) = l.
Proof.
  induction l as [|x l IH]; [reflexivity|].
  cbn [List.length seq map nth]. f_equal.
  rewrite <- seq_shift, map_map. exact IH.
Qed.

Lemma nth_tl {A} (i : nat) (l : list A) (d : A) :
  nth (S i) l d = nth i (tl l) d.
Proof. destruct l; [destruct i|]; reflexivity. Qed.

(** ** The rows of a table *)

Lemma to_dicts_rows (df : frame) :
  to_dicts df = rows_of (height df) (cells_of df).
Proof.
  unfold to_dicts, rows_of, cells_of. apply map_ext. intros i.
  now rewrite map_map.
Qed.

Lemma rows_of_S (n : nat) (cols : list (string * list cell)) :
  rows_of (S n) cols =
  map (fun c => (fst c, hd CNull (snd c))) cols
  :: rows_of n (map (fun c => (fst c, tl (snd c))) cols).
Proof.
  unfold rows_of. cbn [seq map]. f_equal.
  - apply map_ext. intros [m l]. destruct l; reflexivity.
  - rewrite <- seq_shift, map_map. apply map_ext. intros i.
    rewrite map_map. apply map_ext. intros [m l]. cbn [fst snd].
    now rewrite nth_tl.
Qed.

(** Filtering every column with a mask filters the rows with it. *)
Lemma rows_of_filter (mask : list bool) :
  forall cols,
    Forall (fun c => List.length (snd c) = List.length mask) cols ->
    rows_of (List.length (filter_mask mask mask))
            (map (fun c => (fst c, filter_mask mask (snd c))) cols)
    = filter_mask mask (rows_of (List.length mask) cols).
Proof.
  induction mask as [|b mask IH]; intros cols Hl; [reflexivity|].
  assert (Htl : Forall (fun c => List.length (snd c) = List.length mask)
                       (map (fun c => (fst c, tl (snd c))) cols)).
  { rewrite Forall_map. eapply Forall_impl; [|exact Hl].
    intros [m l] H. cbn in *. destruct l; [discriminate|]. cbn in *. lia. }
  specialize (IH _ Htl). rewrite map_map in IH. cbn [fst snd] in IH.
  rewrite Forall_forall in Hl.
  cbn [List.length]. rewrite (rows_of_S (List.length mask)).
  destruct b; cbn [filter_mask].
  - cbn [List.length]. rewrite rows_of_S, !map_map. cbn [fst snd]. f_equal.
    + apply map_ext_in. intros [m l] Hin. specialize (Hl _ Hin). cbn in *.
      destruct l; [discriminate|reflexivity].
    + rewrite <- IH. f_equal. apply map_ext_in. intros [m l] Hin.
      specialize (Hl _ Hin). cbn in *. destruct l; [discriminate|reflexivity].
  - rewrite <- IH. f_equal. apply map_ext_in. intros [m l] Hin.
    specialize (Hl _ Hin). cbn in *. destruct l; [discriminate|reflexivity].
Qed.

Lemma series_cells_filter (mask : list bool) (s : series) :
  series_cells (filter_series mask s) = filter_mask mask (series_cells s).
Proof. destruct s; simpl; now rewrite filter_mask_map. Qed.

Lemma cells_of_filter_frame (mask : list bool) (df : frame) :
  cells_of (filter_frame mask df)
  = map (fun c => (fst c, filter_mask mask (snd c))) (cells_of df).
Proof.
  unfold cells_of, filter_frame. rewrite !map_map. apply map_ext.
  intros [m s]. cbn [fst snd]. now rewrite series_cells_filter.
Qed.

(** The rows of a filtered table are the rows of the table at the
    positions where the mask is true. *)
Lemma to_dicts_filter_frame (mask : list bool) (df : frame) :
  df <> [] ->
  all_len (List.length mask) df ->
  to_dicts (filter_frame mask df) = filter_mask mask (to_dicts df).
Proof.
  intros Hne Hl. rewrite !to_dicts_rows, cells_of_filter_frame.
  assert (Hh : height df = List.length mask).
  { destruct df as [|[m s] rest]; [congruence|]. inversion Hl. assumption. }
  assert (Hf : height (filter_frame mask df) = List.length (filter_mask mask mask)).
  { destruct df as [|[m s] rest]; [congruence|]. cbn [filter_frame map height fst snd].
    unfold series_len. rewrite series_cells_filter.
    apply filter_mask_length_eq. exact Hh. }
  rewrite Hh, Hf. apply rows_of_filter.
  unfold cells_of. rewrite Forall_map. eapply Forall_impl; [|exact Hl].
  intros [m s] H. exact H.
Qed.

Lemma row_get_row (name : string) (i : nat) (df : frame) :
  row_get name (map (fun c => (fst c, nth i (series_cells (snd c)) CNull)) df)
  = match get_column name df with
    | inr s => Some (nth i (series_cells s) CNull)
    | inl _ => None
    end.
Proof.
  induction df as [|[m s] rest IH]; [reflexivity|].
  cbn [map row_get get_column fst snd].
  destruct (String.eqb m name); [reflexivity|exact IH].
Qed.

Lemma nth_not_null_cells {A} (f : A -> cell) (xs : list (option A)) (i : nat) :
  (forall a, is_null (f a) = false) ->
  nth i (map is_some xs) false = negb (is_null (nth i (map (opt_cell f) xs) CNull)).
Proof.
  intros Hf. revert i. induction xs as [|x xs IH]; intros [|i]; try reflexivity.
  - destruct x; cbn; [now rewrite Hf|reflexivity].
  - apply IH.
Qed.

Lemma nth_is_not_null (s : series) (i : nat) :
  nth i (is_not_null s) false = negb (is_null (nth i (series_cells s) CNull)).
Proof. destruct s; apply nth_not_null_cells; reflexivity. Qed.

Lemma nth_mask_and (m1 : list bool) :
  forall m2 i, nth i (mask_and m1 m2) false = nth i m1 false && nth i m2 false.
Proof.
  unfold mask_and.
  induction m1 as [|a m1 IH]; intros [|b m2] [|i]; cbn;
    rewrite ?andb_false_r; try reflexivity.
  apply IH.
Qed.

(** A mask that agrees, position by position, with a test on the rows is
    that test mapped over the rows. *)
Lemma mask_of_rows (f : list (string * cell) -> bool) (mask : list bool) (df : frame) :
  List.length mask = height df ->
  (forall i, f (map (fun c => (fst c, nth i (series_cells (snd c)) CNull)) df)
             = nth i mask false) ->
  map f (to_dicts df) = mask.
Proof.
  intros Hlen H. unfold to_dicts. rewrite map_map, <- Hlen.
  rewrite <- (map_nth_seq false mask) at 2. apply map_ext. exact H.
Qed.

Lemma mask_and_length (m1 m2 : list bool) :
  List.length m1 = List.length m2 ->
  List.length (mask_and m1 m2) = List.length m1.
Proof. intros H. unfold mask_and. rewrite length_map, length_combine. lia. Qed.

Lemma is_not_null_length (s : series) :
  List.length (is_not_null s) = series_len s.
Proof. unfold series_len. destruct s; simpl; now rewrite !length_map. Qed.

Lemma wf_column_len (df : frame) (name : string) (s : series) :
  wf_frame df -> get_column name df = inr s -> series_len s = height df.
Proof.
  intros Hwf H. apply get_column_some in H.
  unfold wf_frame in Hwf. rewrite Forall_forall in Hwf. apply (Hwf _ H).
Qed.

(** C7.  The rows of the cleaned table are the rows of the selected table
    whose amount is non-null and, when the schema has a posting date, whose
    posting date is non-null too, in their original order; every other row
    is dropped and none of those is, the columns are unchanged and the
    cleaned table is no taller than the selected one. *)
Theorem clean_keeps_exactly_usable_rows (selected : frame) (a : series) :
  wf_frame selected ->
  get_column "amount" selected = inr a ->
  exists cleaned,
    clean selected = inr cleaned
    /\ columns cleaned = columns selected
    /\ to_dicts cleaned = filter row_survives (to_dicts selected)
    /\ (forall row, In row (to_dicts cleaned) <->
                    In row (to_dicts selected) /\ row_survives row = true)
    /\ height cleaned = List.length (filter row_survives (to_dicts selected))
    /\ (height cleaned <= height selected)%nat.
Proof.
  intros Hwf Ha.
  assert (Hne : selected <> []) by (intros ->; discriminate).
  assert (Hla : List.length (is_not_null a) = height selected).
  { rewrite is_not_null_length. eapply wf_column_len; eassumption. }
  assert (Hrows : forall cleaned mask,
             cleaned = filter_frame mask selected ->
             List.length mask = height selected ->
             (forall i, row_survives
                          (map (fun c => (fst c, nth i (series_cells (snd c)) CNull))
                               selected)
                        = nth i mask false) ->
             columns cleaned = columns selected
             /\ to_dicts cleaned = filter row_survives (to_dicts selected)
             /\ (forall row, In row (to_dicts cleaned) <->
                             In row (to_dicts selected) /\ row_survives row = true)
             /\ height cleaned = List.length (filter row_survives (to_dicts selected))
             /\ (height cleaned <= height selected)%nat).
  { intros cleaned mask -> Hlen Hrow.
    assert (Hd : to_dicts (filter_frame mask selected)
                 = filter row_survives (to_dicts selected)).
    { rewrite to_dicts_filter_frame; [|assumption|rewrite Hlen; exact Hwf].
      rewrite <- (mask_of_rows row_survives mask selected Hlen Hrow) at 1.
      apply filter_mask_filter. }
    split; [apply columns_filter_frame|].
    split; [exact Hd|].
    split; [intros row; rewrite Hd; apply filter_In|].
    split; [|apply height_filter_frame].
    rewrite <- Hd. unfold to_dicts. now rewrite length_map, length_seq. }
  unfold clean. rewrite Ha. cbn [bind].
  rewrite has_column_filter_frame.
  destruct (has_column "posting_date" selected) eqn:Hd.
  - destruct (get_column_in "posting_date" selected) as (d & Hget & _).
    { now apply has_column_in. }
    rewrite get_column_filter_frame, Hget. cbn [bind ret].
    rewrite is_not_null_filter, filter_frame_twice.
    eexists. split; [reflexivity|].
    apply (Hrows _ _ eq_refl).
    + rewrite mask_and_length; [assumption|].
      rewrite Hla, is_not_null_length. symmetry.
      eapply wf_column_len; eassumption.
    + intros i. unfold row_survives. rewrite !row_get_row, Ha, Hget.
      now rewrite nth_mask_and, !nth_is_not_null.
  - eexists. split; [reflexivity|].
    apply (Hrows _ _ eq_refl); [assumption|].
    intros i. unfold row_survives. rewrite !row_get_row, Ha.
    destruct (get_column "posting_date" selected) as [e|d] eqn:Hget.
    + now rewrite nth_is_not_null, andb_true_r.
    + apply get_column_has in Hget. congruence.
Qed.

Lemma clean_keeps_exactly_usable_rows_witness :
  (amount <- amount_series reference_polars dirty_table ;;
   selected <- select_frame dirty_table amount ;;
   ret (normalize_dates reference_polars selected)) = inr dirty_selected
  /\ map row_survives (to_dicts dirty_selected) = [true; false; false; true]
  /\ clean dirty_selected = inr dirty_cleaned
  /\ exists cleaned,
       clean dirty_selected = inr cleaned
       /\ columns cleaned = ["amount"; "posting_date"]
       /\ to_dicts cleaned =
            [ [ ("amount", CFloat (F64.Fin (25 # 2)));
                ("posting_date", CDatetime 1709510400000000) ];
              [ ("amount", CFloat (F64.Fin (35 # 4)));
                ("posting_date", CDatetime 1709769600000000) ] ]
       /\ height cleaned = 2%nat.
Proof.
  split; [vm_compute; reflexivity|].
  split; [vm_compute; reflexivity|].
  split; [vm_compute; reflexivity|].
  destruct (@clean_keeps_exactly_usable_rows dirty_selected
              (SFloat64 [Some (F64.Fin (25 # 2)); None;
                         Some (F64.Fin (161 # 4)); Some (F64.Fin (35 # 4))]))
    as (cleaned & Hc & Hcols & Hrows & _ & Hh & _).
  - repeat constructor.
  - reflexivity.
  - exists cleaned. split; [exact Hc|].
    split; [exact Hcols|]. split; [exact Hrows|exact Hh].
Defined.

(** ** Debit/credit amounts are never null *)

Lemma money_column_some (pl : polars) (s : series) :
  Forall (fun c => is_some c = true) (money_column pl s).
Proof.
  unfold money_column, fill_null. apply Forall_forall.
  intros c Hc. apply in_map_iff in Hc. destruct Hc as (x & <- & _). reflexivity.
Qed.

Lemma series_sub_some (xs : list (option F64.t)) :
  forall ys,
    Forall (fun c => is_some c = true) xs ->
    Forall (fun c => is_some c = true) ys ->
    Forall (fun c => is_some c = true) (series_sub xs ys).
Proof.
  unfold series_sub.
  induction xs as [|x xs IH]; intros [|y ys] Hx Hy; simpl; try constructor.
  - inversion Hx; inversion Hy; subst.
    destruct x, y; simpl in *; congruence.
  - inversion Hx; inversion Hy; subst. now apply IH.
Qed.

Lemma series_sub_length (xs ys : list (option F64.t)) :
  List.length xs = List.length ys ->
  List.length (series_sub xs ys) = List.length xs.
Proof.
  intros H. unfold series_sub. rewrite length_map, length_combine. lia.
Qed.

Lemma not_null_mask (xs : list (option F64.t)) :
  Forall (fun c => is_some c = true) xs ->
  is_not_null (SFloat64 xs) = repeat true (List.length xs).
Proof. simpl. induction 1; simpl; congruence. Qed.

Lemma select_keys_all_len (df : frame) (fields : list (string * string)) :
  wf_frame df ->
  exists keys,
    select_keys df fields = inr keys /\ all_len (height df) keys.
Proof.
  intros Hwf. induction fields as [|[col alias] rest (keys & Hk & Hl)]; simpl.
  - exists []. split; [reflexivity|constructor].
  - destruct (candidates [col] df) as [|c cs] eqn:Hc.
    + eauto.
    + destruct (first_candidate _ _ Hc) as (s & Hs & _).
      rewrite Hs, Hk. simpl. eexists. split; [reflexivity|].
      constructor; [|assumption]. simpl. eapply wf_column_len; eassumption.
Qed.

Lemma select_frame_all_len (df : frame) (amount : list (option F64.t)) :
  wf_frame df ->
  List.length amount = height df ->
  exists rest,
    select_frame df amount = inr (("amount", SFloat64 amount) :: rest)
    /\ all_len (height df) (("amount", SFloat64 amount) :: rest).
Proof.
  intros Hwf Hlen. unfold select_frame.
  destruct (select_keys_all_len key_fields Hwf) as (keys & Hk & Hl).
  assert (Hamt : series_len (SFloat64 amount) = height df).
  { unfold series_len. simpl. now rewrite length_map. }
  destruct (date_candidates df) as [|c cs] eqn:Hc.
  - cbn [bind ret]. rewrite Hk. cbn [bind ret app]. eexists. split; [reflexivity|].
    constructor; assumption.
  - destruct (first_candidate _ _ Hc) as (s & Hs & _).
    rewrite Hs. cbn [bind ret]. rewrite Hk. cbn [bind ret app].
    eexists. split; [reflexivity|].
    constructor; [assumption|]. constructor; [|assumption].
    simpl. eapply wf_column_len; eassumption.
Qed.

Lemma all_len_with_column (n : nat) (name : string) (s : series) (df : frame) :
  all_len n df -> series_len s = n -> all_len n (with_column name s df).
Proof.
  intros H Hs. induction H as [|[m t] rest Ht Hrest IH]; simpl.
  - constructor; [assumption|constructor].
  - destruct (String.eqb m name); constructor; assumption.
Qed.

Lemma get_column_with_column_other (name other : string) (s : series) (df : frame) :
  String.eqb name other = false ->
  get_column other (with_column name s df) = get_column other df.
Proof.
  intros Hne. induction df as [|[m t] rest IH]; simpl.
  - rewrite Hne. reflexivity.
  - destruct (String.eqb m name) eqn:E; simpl.
    + apply String.eqb_eq in E. subst. now rewrite Hne.
    + destruct (String.eqb m other); [reflexivity|apply IH].
Qed.

Lemma normalize_dates_all_len (pl : polars) (n : nat) (selected : frame) :
  all_len n selected -> all_len n (normalize_dates pl selected).
Proof.
  intros Hl.
  destruct (normalize_dates_cases pl selected) as [-> | (xs & Hin & ->)];
    [assumption|].
  apply all_len_with_column; [assumption|].
  unfold all_len in Hl. rewrite Forall_forall in Hl. specialize (Hl _ Hin).
  unfold series_len in *. simpl in *. now rewrite !length_map in *.
Qed.

Lemma normalize_dates_amount (pl : polars) (selected : frame) :
  get_column "amount" (normalize_dates pl selected) = get_column "amount" selected.
Proof.
  destruct (normalize_dates_cases pl selected) as [-> | (xs & Hin & ->)];
    [reflexivity|].
  now apply get_column_with_column_other.
Qed.

Lemma filter_series_all_true (s : series) :
  filter_series (repeat true (series_len s)) s = s.
Proof.
  unfold series_len.
  destruct s; simpl; rewrite length_map; now rewrite filter_mask_all_true.
Qed.

Lemma filter_frame_all_true (n : nat) (df : frame) :
  all_len n df -> filter_frame (repeat true n) df = df.
Proof.
  induction 1 as [|[m s] rest Hs Hrest IH]; simpl; [reflexivity|].
  simpl in Hs. subst n. rewrite filter_series_all_true. f_equal. exact IH.
Qed.

(** C10.  On the debit/credit path every amount is non-null, so the
    null-amount filter of the Row Cleaner keeps every row and cleaning
    can drop a row for a null posting date only. *)
Theorem debit_credit_amount_never_null
    (pl : polars) (df_full : frame) dr_col drs cr_col crs :
  wf_frame df_full ->
  debit_candidates df_full = dr_col :: drs ->
  credit_candidates df_full = cr_col :: crs ->
  exists amount selected,
    amount_series pl df_full = inr amount
    /\ Forall (fun c => c <> None) amount
    /\ select_frame df_full amount = inr selected
    /\ filter_frame (is_not_null (SFloat64 amount)) (normalize_dates pl selected)
         = normalize_dates pl selected
    /\ clean (normalize_dates pl selected)
         = date_only_clean (normalize_dates pl selected).
Proof.
  intros Hwf Hd Hc.
  destruct (amount_series_pair pl df_full Hd Hc) as (dr & cr & Hdr & Hcr & Ha).
  set (amount := series_sub (money_column pl dr) (money_column pl cr)) in *.
  assert (Hsome : Forall (fun c => is_some c = true) amount).
  { apply series_sub_some; apply money_column_some. }
  assert (Hlen : List.length amount = height df_full).
  { assert (Hldr : series_len dr = height df_full)
      by (eapply wf_column_len; eassumption).
    assert (Hlcr : series_len cr = height df_full)
      by (eapply wf_column_len; eassumption).
    unfold amount. rewrite series_sub_length; rewrite !money_column_length; congruence. }
  destruct (select_frame_all_len amount Hwf Hlen) as (rest & Hsel & Hall).
  set (selected := ("amount", SFloat64 amount) :: rest) in *.
  assert (Hkeep : filter_frame (is_not_null (SFloat64 amount))
                    (normalize_dates pl selected) = normalize_dates pl selected).
  { rewrite (not_null_mask Hsome), Hlen.
    apply filter_frame_all_true, normalize_dates_all_len, Hall. }
  exists amount, selected. repeat split; try assumption.
  - eapply Forall_impl; [|exact Hsome]. intros [x|]; simpl; congruence.
  - unfold clean, date_only_clean.
    rewrite normalize_dates_amount.
    replace (get_column "amount" selected) with (@inr exn _ (SFloat64 amount))
      by reflexivity.
    cbn [bind]. rewrite Hkeep. reflexivity.
Qed.

Lemma debit_credit_amount_never_null_witness :
  exists amount selected,
    amount_series reference_polars weekend_table = inr amount
    /\ Forall (fun c => c <> None) amount
    /\ select_frame weekend_table amount = inr selected
    /\ filter_frame (is_not_null (SFloat64 amount))
         (normalize_dates reference_polars selected)
         = normalize_dates reference_polars selected
    /\ clean (normalize_dates reference_polars selected)
         = date_only_clean (normalize_dates reference_polars selected).
Proof.
  apply (@debit_credit_amount_never_null reference_polars weekend_table
           "Debit" [] "Credit" []).
  - repeat constructor.
  - reflexivity.
  - reflexivity.
Defined.

(** ** Which flags reach [Has Anomaly] *)

Lemma columns_with_column_new (name : string) (s : series) (df : frame) :
  ~ In name (columns df) -> columns (with_column name s df) = (columns df ++ [name])%list.
Proof.
  induction df as [|[n old] rest IH]; simpl; [reflexivity|].
  intros H. destruct (String.eqb n name) eqn:E.
  - apply String.eqb_eq in E. tauto.
  - simpl. f_equal. apply IH. tauto.
Qed.

Lemma columns_with_columns (news : list (string * series)) :
  forall df,
    NoDup (map fst news) ->
    (forall n, In n (map fst news) -> ~ In n (columns df)) ->
    columns (with_columns news df) = (columns df ++ map fst news)%list.
Proof.
  unfold with_columns.
  induction news as [|[n s] news IH]; intros df Hnd Hnew; simpl.
  - now rewrite app_nil_r.
  - inversion Hnd as [|? ? Hn Hnd']. subst.
    rewrite IH; [|assumption|].
    + rewrite columns_with_column_new by (apply Hnew; now left).
      now rewrite <- app_assoc.
    + intros m Hm. rewrite columns_with_column_new by (apply Hnew; now left).
      intros Hin. apply in_app_or in Hin. destruct Hin as [Hin|[->|[]]].
      * apply (Hnew m); [now right|assumption].
      * contradiction.
Qed.

Lemma anomaly_exprs_names (pl : polars) (cleaned : frame) exprs :
  anomaly_exprs pl cleaned = inr exprs -> map fst exprs = flag_names.
Proof.
  unfold anomaly_exprs.
  destruct (round_large_amount cleaned); [discriminate|].
  destruct (near_zero_amount cleaned); [discriminate|].
  destruct (suspicious_description cleaned); [discriminate|].
  destruct (weekend_entry cleaned); [discriminate|].
  destruct (duplicate_entry cleaned); [discriminate|].
  destruct (high_value_entry pl cleaned); [discriminate|].
  destruct (repeating_entry cleaned); [discriminate|].
  cbn [bind ret]. intros H. inversion H. reflexivity.
Qed.

Lemma select_keys_names (df : frame) (fields : list (string * string)) :
  forall keys,
    select_keys df fields = inr keys -> incl (columns keys) (map snd fields).
Proof.
  induction fields as [|[col alias] rest IH]; intros keys; simpl.
  - intros H. inversion H. apply incl_refl.
  - destruct (candidates [col] df) as [|c cs].
    + intros H. apply incl_tl. now apply IH.
    + destruct (get_column c df); [discriminate|]. cbn [bind].
      destruct (select_keys df rest) as [|more]; [discriminate|].
      cbn [bind ret]. intros H. inversion H. simpl.
      apply incl_cons; [now left|]. apply incl_tl. now apply IH.
Qed.

Lemma select_frame_names (df : frame) amount selected :
  select_frame df amount = inr selected -> incl (columns selected) canonical_names.
Proof.
  unfold select_frame, canonical_names. intros H.
  assert (Hdate : forall part,
             match date_candidates df with
             | date_col :: _ =>
                 s <- get_column date_col df ;; ret [("posting_date"%string, s)]
             | [] => ret []
             end = inr part ->
             incl (columns part) ["posting_date"%string]).
  { intros part. destruct (date_candidates df) as [|c cs].
    - intros E. inversion E. intros x [].
    - destruct (get_column c df); [discriminate|].
      intros E. inversion E. apply incl_refl. }
  destruct (match date_candidates df with [] => _ | _ => _ end) as [|part];
    [discriminate|].
  specialize (Hdate part eq_refl). cbn [bind] in H.
  destruct (select_keys df key_fields) as [|keys] eqn:Hk; [discriminate|].
  cbn [bind ret] in H. inversion H. subst.
  apply select_keys_names in Hk.
  unfold columns in *. simpl. rewrite map_app.
  apply incl_cons; [now left|]. apply incl_tl. apply incl_app.
  - intros x Hx. left. destruct (Hdate x Hx) as [<-|[]]. reflexivity.
  - apply incl_tl. exact Hk.
Qed.

Lemma clean_columns (selected cleaned : frame) :
  clean selected = inr cleaned -> columns cleaned = columns selected.
Proof.
  unfold clean. destruct (get_column "amount" selected) as [|a]; [discriminate|].
  cbn [bind].
  destruct (has_column "posting_date" (filter_frame (is_not_null a) selected)).
  - destruct (get_column "posting_date" (filter_frame (is_not_null a) selected));
      [discriminate|].
    cbn [bind ret]. intros H. inversion H. now rewrite !columns_filter_frame.
  - intros H. inversion H. now rewrite columns_filter_frame.
Qed.

Lemma canonical_names_not_flags :
  forall n, In n flag_names -> ~ In n canonical_names.
Proof.
  intros n Hn Hc. simpl in Hn, Hc.
  repeat (destruct Hn as [<-|Hn]; [intuition discriminate|]). exact Hn.
Qed.

Lemma canonical_names_not_entries :
  forall c, In c canonical_names ->
    negb (String.eqb c "amount") && negb (String.eqb c "Has Anomaly")
      && Str.contains "Entry" c = false.
Proof.
  intros c Hc. simpl in Hc.
  repeat (destruct Hc as [<-|Hc]; [reflexivity|]). destruct Hc.
Qed.

(** For every cleaned table the pipeline can produce, [anomaly_cols] is the
    four flags whose name contains "Entry": Round Large Amount, Near-Zero
    Amount and Suspicious Description never reach [Has Anomaly] or the
    per-flag counts. *)
Lemma anomaly_cols_are_entry_flags (pl : polars) (cleaned : frame) flagged :
  incl (columns cleaned) canonical_names ->
  build_results pl cleaned = inr flagged ->
  fst flagged = entry_flags.
Proof.
  intros Hcan. unfold build_results.
  destruct (anomaly_exprs pl cleaned) as [|exprs] eqn:He; [discriminate|].
  cbn [bind].
  assert (Hcols : anomaly_cols (with_columns exprs cleaned) = entry_flags).
  { apply anomaly_exprs_names in He. unfold anomaly_cols.
    rewrite columns_with_columns.
    - rewrite He, filter_app.
      replace (filter _ (columns cleaned)) with (@nil string); [reflexivity|].
      symmetry. induction (columns cleaned) as [|c cs IH]; [reflexivity|].
      simpl. rewrite canonical_names_not_entries by (apply Hcan; now left).
      apply IH. intros x Hx. apply Hcan. now right.
    - rewrite He. unfold flag_names.
      repeat (constructor; [simpl; intuition discriminate|]). constructor.
    - rewrite He. intros n Hn Hin. apply (canonical_names_not_flags Hn).
      now apply Hcan. }
  rewrite Hcols.
  destruct (any_horizontal entry_flags (with_columns exprs cleaned));
    [discriminate|].
  cbn [bind ret]. intros H. inversion H. reflexivity.
Qed.

Lemma cleaned_of_names (pl : polars) (df_full cleaned : frame) :
  cleaned_of pl df_full = inr cleaned -> incl (columns cleaned) canonical_names.
Proof.
  unfold cleaned_of.
  destruct (amount_series pl df_full) as [|amount]; [discriminate|]. cbn [bind].
  destruct (select_frame df_full amount) as [|selected] eqn:Hs; [discriminate|].
  cbn [bind]. intros H. apply clean_columns in H.
  rewrite H, normalize_dates_columns. eapply select_frame_names. eassumption.
Qed.

(** C1.  [Has Anomaly] should be the OR of all seven flags.  On the three
    one-row tables below exactly one flag is true (Near-Zero Amount,
    Suspicious Description, Round Large Amount respectively) and the code
    reports [Has Anomaly] = false: [anomaly_cols] keeps only the column
    names that contain "Entry". *)
Theorem has_anomaly_false_with_a_true_flag :
  results_of reference_polars near_zero_table =
    inr [ ("amount", SFloat64 [Some (F64.Fin (1 # 2))]);
          ("Round Large Amount", SBoolean [Some false]);
          ("Near-Zero Amount", SBoolean [Some true]);
          ("Suspicious Description", SBoolean [Some false]);
          ("Weekend Entry", SBoolean [Some false]);
          ("Duplicate Entry", SBoolean [Some false]);
          ("High-Value Entry", SBoolean [Some false]);
          ("Repeating Entry", SBoolean [Some false]);
          ("Has Anomaly", SBoolean [Some false]) ]
  /\ results_of reference_polars suspicious_table =
    inr [ ("amount", SFloat64 [Some (F64.Fin (1001 # 2))]);
          ("description", SUtf8 [Some "misc"]);
          ("Round Large Amount", SBoolean [Some false]);
          ("Near-Zero Amount", SBoolean [Some false]);
          ("Suspicious Description", SBoolean [Some true]);
          ("Weekend Entry", SBoolean [Some false]);
          ("Duplicate Entry", SBoolean [Some false]);
          ("High-Value Entry", SBoolean [Some false]);
          ("Repeating Entry", SBoolean [Some false]);
          ("Has Anomaly", SBoolean [Some false]) ]
  /\ results_of reference_polars round_large_table =
    inr [ ("amount", SFloat64 [Some (F64.Fin 5000)]);
          ("Round Large Amount", SBoolean [Some true]);
          ("Near-Zero Amount", SBoolean [Some false]);
          ("Suspicious Description", SBoolean [Some false]);
          ("Weekend Entry", SBoolean [Some false]);
          ("Duplicate Entry", SBoolean [Some false]);
          ("High-Value Entry", SBoolean [Some false]);
          ("Repeating Entry", SBoolean [Some false]);
          ("Has Anomaly", SBoolean [Some false]) ].
Proof. repeat split; vm_compute; reflexivity. Qed.

(** C2.  [charts.anomalies] should have one entry per flag, with the number
    of cleaned rows where the flag is true.  For a table whose single row
    has Near-Zero Amount true, the mapping has four keys only, none of them
    Near-Zero Amount, and the row is not among the anomalies at all. *)
Theorem charts_lack_three_flags :
  exists p,
    analyze_je reference_polars near_zero_table = Success p
    /\ charts_anomalies p =
         [ ("Weekend Entry", 0%nat); ("Duplicate Entry", 0%nat);
           ("High-Value Entry", 0%nat); ("Repeating Entry", 0%nat) ]
    /\ total_entries (p_summary p) = 1%nat
    /\ anomalies_found (p_summary p) = 0%nat.
Proof. eexists. vm_compute. repeat split. Qed.

(** ** High-value entries *)

(** The comparison of the rule, [>=] on two floats, is the order on the
    rationals with a NaN on top. *)
Lemma geb_at_or_above (x y : F64.t) :
  F64.geb x y = true <-> at_or_above x y.
Proof.
  unfold F64.geb, F64.leb.
  destruct x as [a| | |], y as [b| | |]; cbn [F64.ltb F64.eqb at_or_above orb];
    try (split; [intros; exact I|reflexivity]);
    try (split; [discriminate|intros []]).
  unfold F64.Qlt_bool. rewrite orb_true_iff, negb_true_iff. split.
  - intros [H|H].
    + apply Qlt_le_weak, Qnot_le_lt. intros C. apply Qle_bool_iff in C. congruence.
    + apply Qeq_bool_iff in H. rewrite H. apply Qle_refl.
  - intros H. destruct (Qle_bool a b) eqn:E; [|now left].
    right. apply Qeq_bool_iff. apply Qle_bool_iff in E. apply Qle_antisym; assumption.
Qed.

(** C6.  A row is flagged High-Value Entry exactly when the cleaned table
    has more than 10 rows and the row's absolute amount is at or above the
    0.99 quantile of the absolute amounts of the whole cleaned table; with
    10 rows or fewer no row is flagged.  The order is the one polars
    compares floats in: a NaN amount is at or above every threshold, and
    only a NaN is at or above a NaN threshold. *)
Theorem high_value_iff_above_quantile
    (pl : polars) (cleaned : frame) (xs : list (option F64.t)) (i : nat) (a : F64.t) :
  amounts cleaned = inr xs ->
  List.length xs = height cleaned ->
  nth_error xs i = Some (Some a) ->
  exists flags,
    high_value_entry pl cleaned = inr (SBoolean flags)
    /\ (exists b, nth_error flags i = Some (Some b))
    /\ (nth_error flags i = Some (Some true) <->
        (10 < height cleaned)%nat
        /\ at_or_above (F64.abs a)
                       (quantile pl (99 # 100) (map F64.abs (somes xs))))
    /\ ((height cleaned <= 10)%nat -> nth_error flags i = Some (Some false)).
Proof.
  intros Ha Hlen Hi. unfold high_value_entry, high_value_threshold.
  destruct (Nat.ltb 10 (height cleaned)) eqn:Hn.
  - apply Nat.ltb_lt in Hn. rewrite Ha. cbn [bind ret].
    eexists. split; [reflexivity|].
    rewrite nth_error_map, Hi. cbn [option_map]. split; [eauto|].
    split; [|intros; lia].
    rewrite <- geb_at_or_above. split.
    + intros H. inversion H. auto.
    + intros [_ ->]. reflexivity.
  - apply Nat.ltb_ge in Hn. unfold lit_false.
    eexists. split; [reflexivity|].
    assert (Hlt : (i < height cleaned)%nat).
    { rewrite <- Hlen. apply nth_error_Some. congruence. }
    rewrite (nth_error_repeat _ Hlt). split; [eauto|].
    split; [|reflexivity].
    split; [discriminate|]. intros [H _]. lia.
Qed.

Lemma high_value_iff_above_quantile_witness :
  cleaned_of reference_polars outlier_table = inr outlier_cleaned
  /\ high_value_entry reference_polars outlier_cleaned =
       inr (SBoolean [ Some false; Some false; Some false; Some false;
                       Some false; Some false; Some false; Some false;
                       Some false; Some false; Some true ])
  /\ high_value_entry reference_polars nan_cleaned =
       inr (SBoolean [ Some false; Some false; Some false; Some true;
                       Some false; Some false; Some false; Some false;
                       Some false; Some false; Some false ])
  /\ (exists flags,
        high_value_entry reference_polars outlier_cleaned = inr (SBoolean flags)
        /\ nth_error flags 10 = Some (Some true))
  /\ (exists flags,
        high_value_entry reference_polars nan_cleaned = inr (SBoolean flags)
        /\ nth_error flags 3 = Some (Some true)).
Proof.
  split; [vm_compute; reflexivity|].
  split; [vm_compute; reflexivity|].
  split; [vm_compute; reflexivity|].
  split.
  - destruct (@high_value_iff_above_quantile reference_polars outlier_cleaned
                outlier_amounts 10 (F64.Fin (1800001 # 2)))
      as (flags & Hflags & _ & Hiff & _); try reflexivity.
    exists flags. split; [exact Hflags|].
    apply Hiff. split; [vm_compute; apply le_n|].
    apply geb_at_or_above. vm_compute. reflexivity.
  - destruct (@high_value_iff_above_quantile reference_polars nan_cleaned
                nan_amounts 3 F64.NaN)
      as (flags & Hflags & _ & Hiff & _); try reflexivity.
    exists flags. split; [exact Hflags|].
    apply Hiff. split; [vm_compute; apply le_n|exact I].
Defined.

(** ** Imbalance percentage *)










(** What [summarize] reports as Imbalance % is the rounded result of
    [imbalance] on the sums of the amount column. *)
Lemma summarize_imbalance (cols : list string) (results : frame) (p : payload) :
  summarize cols results = inr p ->
  exists a r,
    amounts results = inr a
    /\ imbalance (F64.sum (somes a)) (F64.sum (map F64.abs (somes a))) = inr r
    /\ imbalance_pct (p_summary p) = F64.py_round2 r.
Proof.
  unfold summarize.
  destruct (filter_by "Has Anomaly" results) as [e|anomalies]; [discriminate|].
  destruct (amounts results) as [e|a]; [discriminate|]. cbn [bind].
  destruct (imbalance (F64.sum (somes a)) (F64.sum (map F64.abs (somes a))))
    as [e|r] eqn:Hi; [discriminate|]. cbn [bind].
  destruct (chart_counts cols anomalies) as [e|charts]; [discriminate|].
  cbn [bind ret]. intros H. inversion H. subst. exists a, r.
  split; [reflexivity|]. split; [exact Hi|reflexivity].
Qed.


(** * Further properties of the endpoints *)

Local Open Scope list_scope.

(** ** Schema inference *)

Lemma prefix_trans (a : string) :
  forall b s, prefix a b = true -> prefix b s = true -> prefix a s = true.
Proof.
  induction a as [|x a IH]; intros b s Hab Hbs; [destruct s; reflexivity|].
  destruct b as [|y b]; [discriminate|].
  destruct s as [|z s]; [discriminate|].
  simpl in *.
  destruct (ascii_dec x y) as [->|]; [|discriminate].
  destruct (ascii_dec y z) as [->|]; [|discriminate].
  eapply IH; eassumption.
Qed.

Lemma contains_prefix (a b : string) :
  prefix a b = true ->
  forall s, Str.contains b s = true -> Str.contains a s = true.
Proof.
  intros Hab. induction s as [|c s IH]; cbn [Str.contains]; intros H.
  - apply orb_true_iff in H. destruct H as [H|H]; [|discriminate].
    rewrite (prefix_trans _ _ _ Hab H). reflexivity.
  - apply orb_true_iff in H. destruct H as [H|H].
    + rewrite (prefix_trans _ _ _ Hab H). reflexivity.
    + rewrite (IH H). apply orb_true_r.
Qed.

Lemma candidates_app (tokens : list string) (df1 df2 : frame) :
  candidates tokens (df1 ++ df2) = (candidates tokens df1 ++ candidates tokens df2)%list.
Proof. unfold candidates, columns. now rewrite map_app, filter_app. Qed.

Lemma candidates_none (tokens : list string) (df : frame) :
  (forall n, In n (columns df) -> role_matches tokens n = false) ->
  candidates tokens df = [].
Proof.
  unfold candidates. induction (columns df) as [|c cs IH]; intros H; [reflexivity|].
  simpl. unfold role_matches in H. rewrite (H c) by now left.
  apply IH. intros n Hn. apply H. now right.
Qed.

(** The column chosen for a role is the first one, in the original column
    order, whose lower-cased name contains one of the role's tokens; the
    columns before it and after it do not matter. *)
Theorem first_matching_column_is_selected
    (tokens : list string) (before after : frame) (c : string) (s : series) :
  (forall n, In n (columns before) -> role_matches tokens n = false) ->
  role_matches tokens c = true ->
  exists rest, candidates tokens (before ++ (c, s) :: after) = c :: rest.
Proof.
  intros Hb Hc. rewrite candidates_app, (candidates_none _ _ Hb).
  unfold candidates. simpl. unfold role_matches in Hc. rewrite Hc. eauto.
Qed.

Lemma first_matching_column_is_selected_witness :
  exists rest,
    candidates ["debit"]
      ([("Amount", utf8 ["999"; "999"])]
         ++ ("Debit", utf8 ["100"; "n/a"])
         :: [("Credit", utf8 ["30"; "1,000"]); ("Debit 2", utf8 ["7"; "7"])])
    = "Debit" :: rest.
Proof.
  apply (@first_matching_column_is_selected ["debit"]
           [("Amount", utf8 ["999"; "999"])]
           [("Credit", utf8 ["30"; "1,000"]); ("Debit 2", utf8 ["7"; "7"])]
           "Debit" (utf8 ["100"; "n/a"])).
  - intros n [<-|[]]. reflexivity.
  - reflexivity.
Defined.

Lemma get_column_app_skip (name : string) (df1 df2 : frame) (c : string) (s : series) :
  name <> c ->
  get_column name (df1 ++ (c, s) :: df2) = get_column name (df1 ++ df2).
Proof.
  intros Hne. induction df1 as [|[n t] df1 IH]; simpl.
  - destruct (String.eqb c name) eqn:E; [|reflexivity].
    apply String.eqb_eq in E. congruence.
  - destruct (String.eqb n name); [reflexivity|exact IH].
Qed.

Lemma candidate_matches (tokens : list string) (df : frame) (c : string) :
  In c (candidates tokens df) -> role_matches tokens c = true.
Proof. unfold candidates. rewrite filter_In. tauto. Qed.

(** A column whose name matches none of the tokens [debit], [credit],
    [amount], [amt] has no influence on the reconciled amount, wherever it
    stands in the table. *)
Theorem unrelated_column_leaves_amount
    (pl : polars) (before after : frame) (c : string) (s : series) :
  role_matches ["debit"; "credit"; "amount"; "amt"] c = false ->
  amount_series pl (before ++ (c, s) :: after) = amount_series pl (before ++ after).
Proof.
  intros Hc.
  assert (Hno : forall tokens,
             incl tokens ["debit"; "credit"; "amount"; "amt"] ->
             role_matches tokens c = false).
  { intros tokens Hin. unfold role_matches in *.
    destruct (existsb _ tokens) eqn:E; [|reflexivity].
    apply existsb_exists in E. destruct E as (tok & Htok & Hm).
    rewrite <- Hc. symmetry. apply existsb_exists. exists tok. split; [|assumption].
    now apply Hin. }
  assert (Hcand : forall tokens,
             incl tokens ["debit"; "credit"; "amount"; "amt"] ->
             candidates tokens (before ++ (c, s) :: after)
             = candidates tokens (before ++ after)).
  { intros tokens Hin. rewrite !candidates_app. f_equal.
    unfold candidates. simpl. specialize (Hno tokens Hin).
    unfold role_matches in Hno. now rewrite Hno. }
  assert (Hget : forall tokens name,
             incl tokens ["debit"; "credit"; "amount"; "amt"] ->
             In name (candidates tokens (before ++ after)) ->
             get_column name (before ++ (c, s) :: after)
             = get_column name (before ++ after)).
  { intros tokens name Hin Hname. apply get_column_app_skip. intros ->.
    apply candidate_matches in Hname. rewrite (Hno tokens Hin) in Hname.
    discriminate. }
  unfold amount_series, debit_candidates, credit_candidates, amount_candidates.
  rewrite !Hcand by (intros x Hx; simpl in *; tauto).
  destruct (candidates ["debit"] (before ++ after)) as [|dr drs] eqn:Hd;
    destruct (candidates ["credit"] (before ++ after)) as [|cr crs] eqn:Hcr;
    destruct (candidates ["amount"; "amt"] (before ++ after)) as [|am ams] eqn:Ha;
    try reflexivity;
    repeat match goal with
    | |- context [get_column ?n (before ++ (c, s) :: after)] =>
        first
          [ rewrite (Hget ["debit"] n)
              by (first [intros x Hx; simpl in *; tauto | rewrite Hd; now left])
          | rewrite (Hget ["credit"] n)
              by (first [intros x Hx; simpl in *; tauto | rewrite Hcr; now left])
          | rewrite (Hget ["amount"; "amt"] n)
              by (first [intros x Hx; simpl in *; tauto | rewrite Ha; now left]) ]
    end; reflexivity.
Qed.

Lemma unrelated_column_leaves_amount_witness :
  amount_series reference_polars
    ([("Debit", utf8 ["100"])] ++ ("Memo", utf8 ["x"]) :: [("Credit", utf8 ["30"])])
  = amount_series reference_polars
      ([("Debit", utf8 ["100"])] ++ [("Credit", utf8 ["30"])]).
Proof.
  apply (@unrelated_column_leaves_amount reference_polars
           [("Debit", utf8 ["100"])] [("Credit", utf8 ["30"])] "Memo" (utf8 ["x"])).
  reflexivity.
Defined.

Lemma candidates_incl (small big : list string) (df : frame) :
  (forall c, role_matches small c = true -> role_matches big c = true) ->
  incl (candidates small df) (candidates big df).
Proof.
  intros H c Hc. unfold candidates in *. rewrite filter_In in *.
  destruct Hc as [Hin Hm]. split; [assumption|]. now apply H.
Qed.

Lemma select_keys_total (df : frame) (fields : list (string * string)) :
  exists keys, select_keys df fields = inr keys.
Proof.
  induction fields as [|[col alias] rest (keys & Hk)]; simpl; [eauto|].
  destruct (candidates [col] df) as [|c cs] eqn:Hc; [eauto|].
  destruct (first_candidate _ _ Hc) as (s & Hs & _).
  rewrite Hs, Hk. simpl. eauto.
Qed.

Lemma select_keys_has (df : frame) (fields : list (string * string)) col alias :
  In (col, alias) fields ->
  candidates [col] df <> [] ->
  forall keys, select_keys df fields = inr keys -> In alias (columns keys).
Proof.
  induction fields as [|[col' alias'] rest IH]; intros Hin Hne keys; [destruct Hin|].
  simpl. destruct Hin as [E|Hin].
  - inversion E. subst.
    destruct (candidates [col] df) as [|c cs]; [congruence|].
    destruct (get_column c df); [discriminate|]. cbn [bind].
    destruct (select_keys df rest); [discriminate|]. cbn [bind ret].
    intros H. inversion H. now left.
  - destruct (candidates [col'] df) as [|c cs].
    + now apply IH.
    + destruct (get_column c df); [discriminate|]. cbn [bind].
      destruct (select_keys df rest) as [|more] eqn:Hm; [discriminate|].
      cbn [bind ret]. intros H. inversion H. right. now apply IH.
Qed.

(** Every column that resolves the [posted_by] role also matches the date
    role (its name contains "posted"): a table with a posted-by column
    always gets a posting date, taken from that column when no other
    date-like column comes first. *)
Theorem posted_by_column_is_a_date_candidate (df_full : frame) :
  incl (candidates ["posted_by"] df_full) (date_candidates df_full)
  /\ (candidates ["posted_by"] df_full <> [] ->
      forall amount selected,
        select_frame df_full amount = inr selected ->
        has_column "posting_date" selected = true
        /\ has_column "posted_by" selected = true).
Proof.
  assert (Hincl : incl (candidates ["posted_by"] df_full) (date_candidates df_full)).
  { apply candidates_incl. intros c Hc. unfold role_matches in *. simpl in *.
    rewrite orb_false_r in Hc.
    rewrite (contains_prefix "posted" "posted_by" eq_refl _ Hc).
    now rewrite !orb_true_r. }
  split; [exact Hincl|].
  intros Hne amount selected Hsel.
  unfold select_frame in Hsel.
  destruct (date_candidates df_full) as [|d ds] eqn:Hd.
  { destruct (candidates ["posted_by"] df_full) as [|c cs]; [congruence|].
    destruct (Hincl c). now left. }
  destruct (first_candidate _ _ Hd) as (s & Hs & _).
  rewrite Hs in Hsel. cbn [bind ret] in Hsel.
  destruct (select_keys df_full key_fields) as [|keys] eqn:Hk; [discriminate|].
  cbn [bind ret] in Hsel. inversion Hsel. subst. split; [reflexivity|].
  apply has_column_in. simpl. right. right.
  apply (@select_keys_has df_full key_fields "posted_by" "posted_by");
    [simpl; tauto | assumption | assumption].
Qed.

Lemma select_keys_nodup (df : frame) (fields : list (string * string)) :
  NoDup (map snd fields) ->
  forall keys, select_keys df fields = inr keys -> NoDup (columns keys).
Proof.
  induction fields as [|[col alias] rest IH]; intros Hnd keys; simpl.
  - intros H. inversion H. constructor.
  - inversion Hnd as [|? ? Hnot Hnd']. subst.
    destruct (candidates [col] df) as [|c cs]; [now apply IH|].
    destruct (get_column c df); [discriminate|]. cbn [bind].
    destruct (select_keys df rest) as [|more] eqn:Hm; [discriminate|].
    cbn [bind ret]. intros H. inversion H. simpl. constructor.
    + intros Hin. apply Hnot. now apply (select_keys_names _ _ Hm).
    + now apply IH.
Qed.

Lemma select_frame_shape (df_full : frame) (amount : list (option F64.t)) :
  exists rest,
    select_frame df_full amount = inr (("amount", SFloat64 amount) :: rest)
    /\ NoDup (columns (("amount", SFloat64 amount) :: rest))
    /\ incl (columns (("amount", SFloat64 amount) :: rest)) canonical_names.
Proof.
  destruct (select_keys_total df_full key_fields) as (keys & Hk).
  assert (Hnames := select_keys_names _ _ Hk).
  assert (Hnd : NoDup (columns keys)).
  { apply (select_keys_nodup df_full key_fields); [|exact Hk].
    simpl. repeat (constructor; [simpl; intuition discriminate|]). constructor. }
  assert (Hamt : ~ In "amount" (columns keys)).
  { intros H. apply Hnames in H. simpl in H. intuition discriminate. }
  assert (Hdate : ~ In "posting_date" (columns keys)).
  { intros H. apply Hnames in H. simpl in H. intuition discriminate. }
  assert (Hsel : exists rest,
             select_frame df_full amount = inr (("amount", SFloat64 amount) :: rest)
             /\ (columns rest = columns keys
                 \/ columns rest = "posting_date" :: columns keys)).
  { unfold select_frame. destruct (date_candidates df_full) as [|d ds] eqn:Hd.
    - cbn [bind ret]. rewrite Hk. cbn [bind ret app]. eauto.
    - destruct (first_candidate _ _ Hd) as (s & Hs & _).
      rewrite Hs. cbn [bind ret]. rewrite Hk. cbn [bind ret app].
      eexists. split; [reflexivity|]. right. reflexivity. }
  destruct Hsel as (rest & Hsel & Hcols).
  exists rest. split; [exact Hsel|].
  assert (Hsub : incl (columns rest) ("posting_date" :: columns keys)).
  { destruct Hcols as [-> | ->]; [apply incl_tl|]; apply incl_refl. }
  split.
  - simpl. constructor.
    + intros H. apply Hsub in H. destruct H as [H|H]; [discriminate|contradiction].
    + destruct Hcols as [-> | ->]; [assumption|]. constructor; assumption.
  - simpl. apply incl_cons; [now left|].
    intros x Hx. apply Hsub in Hx. destruct Hx as [<-|Hx].
    + right. now left.
    + right. right. apply Hnames, Hx.
Qed.

(** ** Thousands separators *)

(** Selection never raises: whatever the table, the selected table starts
    with the amount column, has pairwise distinct column names, and all of
    them are canonical names. *)
Theorem select_frame_schema (df_full : frame) (amount : list (option F64.t)) :
  exists rest,
    select_frame df_full amount = inr (("amount", SFloat64 amount) :: rest)
    /\ NoDup (columns (("amount", SFloat64 amount) :: rest))
    /\ incl (columns (("amount", SFloat64 amount) :: rest)) canonical_names.
Proof. apply select_frame_shape. Qed.
Lemma remove_char_absent (c : ascii) (s : string) :
  count_char c s = 0%nat -> Str.remove_char c s = s.
Proof.
  induction s as [|d r IH]; simpl; [reflexivity|].
  destruct (Ascii.eqb c d); [discriminate|]. intros H. now rewrite IH.
Qed.

Lemma replace_single_comma (s : string) :
  (count_char "," s <= 1)%nat -> Str.replace "," "" s = Str.remove_char "," s.
Proof.
  induction s as [|d r IH]; [reflexivity|].
  cbn [Str.replace Str.remove_char count_char prefix].
  destruct (ascii_dec "," d) as [<-|Hne].
  - rewrite Ascii.eqb_refl. intros H.
    replace (prefix "" r) with true by (destruct r; reflexivity).
    simpl. symmetry. apply remove_char_absent. simpl in H. lia.
  - replace (Ascii.eqb "," d) with false
      by (symmetry; apply Ascii.eqb_neq; exact Hne).
    intros H. rewrite IH by (simpl in H; exact H). reflexivity.
Qed.

(** A debit or credit cell with at most one comma contributes its
    comma-free value: the number it spells without the comma, and 0.0 when
    that is not a number or the cell is null. *)
Theorem single_comma_cells_are_parsed (pl : polars) (xs : list (option string)) :
  Forall (fun c => match c with
                   | Some s => (count_char "," s <= 1)%nat
                   | None => True
                   end) xs ->
  money_column pl (SUtf8 xs) = map (comma_free_value pl) xs.
Proof.
  intros H. unfold money_column, fill_null, str_replace, cast_f64, cast_utf8.
  rewrite !map_map. apply map_ext_in. intros c Hc.
  rewrite Forall_forall in H. specialize (H c Hc).
  destruct c as [s|]; simpl; [|reflexivity].
  now rewrite replace_single_comma.
Qed.

Lemma single_comma_cells_are_parsed_witness :
  money_column reference_polars (SUtf8 [Some "1,234"; Some "n/a"; None; Some "12.5"])
  = map (comma_free_value reference_polars)
        [Some "1,234"; Some "n/a"; None; Some "12.5"].
Proof.
  apply (@single_comma_cells_are_parsed reference_polars
           [Some "1,234"; Some "n/a"; None; Some "12.5"]).
  repeat constructor.
Defined.

(** ** Date normalisation, continued *)

Lemma get_column_with_column_same (name : string) (s : series) (df : frame) :
  get_column name (with_column name s df) = inr s.
Proof.
  induction df as [|[n t] rest IH]; simpl.
  - now rewrite String.eqb_refl.
  - destruct (String.eqb n name) eqn:E; simpl; rewrite E; [reflexivity|exact IH].
Qed.

(** Date normalisation touches the posting date only: every other column
    is returned as it was, a string posting date is parsed cell by cell
    with the first format of the list ([%Y-%m-%d]) and with no other, and
    a posting date of any other dtype is returned as it was. *)
Theorem dates_parsed_with_first_format_only (pl : polars) (selected : frame) :
  (forall name,
      name <> "posting_date" ->
      get_column name (normalize_dates pl selected) = get_column name selected)
  /\ (forall s,
      get_column "posting_date" selected = inr s ->
      get_column "posting_date" (normalize_dates pl selected) =
        inr match s with
            | SUtf8 xs => SDatetime (map (opt_bind (strptime pl "%Y-%m-%d")) xs)
            | _ => s
            end).
Proof.
  split.
  - intros name Hne.
    destruct (normalize_dates_cases pl selected) as [-> | (xs & Hin & ->)];
      [reflexivity|].
    apply get_column_with_column_other. apply String.eqb_neq. congruence.
  - intros s Hs. destruct s;
      try (rewrite (normalize_dates_not_utf8 pl _ Hs); [exact Hs|discriminate]).
    rewrite (normalize_dates_utf8 pl _ Hs). apply get_column_with_column_same.
Qed.

(** ** Row cleaning, continued *)

Lemma filter_mask_forall {A} (P : A -> Prop) (mask : list bool) :
  forall xs, Forall P xs -> Forall P (filter_mask mask xs).
Proof.
  induction mask as [|b mask IH]; intros [|x xs] H; simpl; try constructor.
  inversion H. subst. destruct b; [constructor|]; auto.
Qed.

Lemma filter_mask_self (mask : list bool) :
  Forall (fun b => b = true) (filter_mask mask mask).
Proof.
  induction mask as [|[] mask IH]; simpl; [constructor| |assumption].
  constructor; [reflexivity|assumption].
Qed.

Lemma all_true_repeat (mask : list bool) :
  Forall (fun b => b = true) mask -> mask = repeat true (List.length mask).
Proof. induction 1; simpl; congruence. Qed.

Lemma all_len_filter_frame (n : nat) (mask : list bool) (df : frame) :
  all_len n df ->
  all_len (List.length (filter_mask mask (repeat tt n))) (filter_frame mask df).
Proof.
  intros H. unfold all_len, filter_frame in *. rewrite Forall_map.
  eapply Forall_impl; [|exact H]. intros [m s] Hs. simpl in *.
  unfold series_len in *.
  assert (E : forall A (xs : list A),
             List.length xs = n ->
             List.length (filter_mask mask xs)
             = List.length (filter_mask mask (repeat tt n))).
  { intros A xs Hx. apply filter_mask_length_eq. now rewrite repeat_length. }
  destruct s; simpl in *; rewrite length_map in *; now apply E.
Qed.

(** What [clean] returns, spelled out. *)
Lemma clean_result (selected cleaned : frame) :
  clean selected = inr cleaned ->
  exists a,
    get_column "amount" selected = inr a
    /\ ((has_column "posting_date" selected = false
         /\ cleaned = filter_frame (is_not_null a) selected)
        \/ (exists d,
               get_column "posting_date" selected = inr d
               /\ cleaned =
                    filter_frame (is_not_null (filter_series (is_not_null a) d))
                      (filter_frame (is_not_null a) selected))).
Proof.
  unfold clean. destruct (get_column "amount" selected) as [|a]; [discriminate|].
  cbn [bind]. rewrite has_column_filter_frame, get_column_filter_frame.
  destruct (has_column "posting_date" selected) eqn:Hd.
  - destruct (get_column "posting_date" selected) as [|d]; [discriminate|].
    cbn [bind ret]. intros H. inversion H. exists a. split; [reflexivity|].
    right. exists d. split; reflexivity.
  - intros H. inversion H. exists a. split; [reflexivity|]. left. split; reflexivity.
Qed.

Lemma clean_no_nulls (selected cleaned : frame) :
  clean selected = inr cleaned ->
  (forall a, get_column "amount" cleaned = inr a ->
             Forall (fun b => b = true) (is_not_null a))
  /\ (forall d, get_column "posting_date" cleaned = inr d ->
                Forall (fun b => b = true) (is_not_null d)).
Proof.
  intros H. destruct (clean_result _ H) as (a & Ha & [(Hno & ->) | (d & Hd & ->)]).
  - split.
    + intros a'. rewrite get_column_filter_frame, Ha. cbn [bind ret].
      intros E. inversion E. rewrite is_not_null_filter. apply filter_mask_self.
    + intros d'. rewrite get_column_filter_frame. intros E.
      destruct (get_column "posting_date" selected) as [|d] eqn:Hd; [discriminate|].
      apply get_column_has in Hd. congruence.
  - split.
    + intros a'. rewrite !get_column_filter_frame, Ha. cbn [bind ret].
      intros E. inversion E. rewrite !is_not_null_filter.
      apply filter_mask_forall, filter_mask_self.
    + intros d'. rewrite !get_column_filter_frame, Hd. cbn [bind ret].
      intros E. inversion E. rewrite is_not_null_filter. apply filter_mask_self.
Qed.

(** After cleaning no amount and no posting date is null. *)
Theorem cleaned_rows_have_no_null (selected cleaned : frame) :
  clean selected = inr cleaned ->
  (forall a, get_column "amount" cleaned = inr a ->
             Forall (fun b => b = true) (is_not_null a))
  /\ (forall d, get_column "posting_date" cleaned = inr d ->
                Forall (fun b => b = true) (is_not_null d)).
Proof. apply clean_no_nulls. Qed.

Lemma cleaned_rows_have_no_null_witness :
  exists cleaned,
    clean dirty_selected = inr cleaned
    /\ (forall a, get_column "amount" cleaned = inr a ->
                  Forall (fun b => b = true) (is_not_null a))
    /\ (forall d, get_column "posting_date" cleaned = inr d ->
                  Forall (fun b => b = true) (is_not_null d)).
Proof.
  eexists. split; [reflexivity|].
  apply (@cleaned_rows_have_no_null dirty_selected). reflexivity.
Defined.

Lemma clean_all_len (n : nat) (selected cleaned : frame) :
  all_len n selected -> clean selected = inr cleaned ->
  exists m, all_len m cleaned.
Proof.
  intros Hl H. destruct (clean_result _ H) as (a & _ & [(_ & ->) | (d & _ & ->)]).
  - eexists. apply all_len_filter_frame, Hl.
  - eexists. apply all_len_filter_frame, all_len_filter_frame, Hl.
Qed.

Lemma all_len_column (n : nat) (df : frame) (name : string) (s : series) :
  all_len n df -> get_column name df = inr s -> series_len s = n.
Proof.
  intros Hl H. apply get_column_some in H.
  unfold all_len in Hl. rewrite Forall_forall in Hl. apply (Hl _ H).
Qed.

(** Cleaning a cleaned table changes nothing. *)
Theorem clean_is_idempotent (n : nat) (selected cleaned : frame) :
  all_len n selected ->
  clean selected = inr cleaned ->
  clean cleaned = inr cleaned.
Proof.
  intros Hl H.
  destruct (clean_all_len Hl H) as (m & Hm).
  destruct (clean_no_nulls _ H) as (Hamt & Hdate).
  assert (Hcols := clean_columns _ H).
  assert (Hkeep : forall name s,
             get_column name cleaned = inr s ->
             Forall (fun b => b = true) (is_not_null s) ->
             filter_frame (is_not_null s) cleaned = cleaned).
  { intros name s Hs Hall. rewrite (all_true_repeat Hall), is_not_null_length.
    rewrite (@all_len_column m cleaned name s Hm Hs). now apply filter_frame_all_true. }
  destruct (clean_result _ H) as (a0 & Ha0 & _).
  destruct (get_column_in "amount" cleaned) as (a & Ha & _).
  { rewrite Hcols. apply has_column_in. eapply get_column_has. eassumption. }
  unfold clean. rewrite Ha. cbn [bind].
  rewrite (Hkeep _ _ Ha (Hamt _ Ha)).
  destruct (has_column "posting_date" cleaned) eqn:Hd; [|reflexivity].
  destruct (get_column_in "posting_date" cleaned) as (d & Hgd & _).
  { now apply has_column_in. }
  rewrite Hgd. cbn [bind ret]. now rewrite (Hkeep _ _ Hgd (Hdate _ Hgd)).
Qed.

Lemma clean_is_idempotent_witness :
  exists cleaned,
    clean dirty_selected = inr cleaned /\ clean cleaned = inr cleaned.
Proof.
  eexists. split; [reflexivity|].
  apply (@clean_is_idempotent 4 dirty_selected); [repeat constructor|reflexivity].
Defined.

(** ** The amount rules *)

Lemma Qlt_bool_iff (a b : Q) : F64.Qlt_bool a b = true <-> a < b.
Proof.
  unfold F64.Qlt_bool. rewrite negb_true_iff. split.
  - intros H. apply Qnot_le_lt. intros C. apply Qle_bool_iff in C. congruence.
  - intros H. destruct (Qle_bool b a) eqn:E; [|reflexivity].
    apply Qle_bool_iff in E. exfalso. apply (Qlt_not_le _ _ H E).
Qed.

Lemma is_round_large_fin (q : Q) :
  is_round_large (F64.Fin q) = true <->
  Qabs q == inject_Z (Qfloor (Qabs q)) /\ 1000 < Qabs q.
Proof.
  unfold is_round_large. cbn [F64.abs F64.rem1 F64.eqb F64.gtb F64.ltb F64.zero].
  rewrite andb_true_iff, Qeq_bool_iff, Qlt_bool_iff.
  rewrite (Qfloor_comp _ _ (Qred_correct (Qabs q))).
  rewrite !Qred_correct. split; intros [H1 H2]; (split; [lra|assumption]).
Qed.

(** Round Large Amount is true exactly for the whole-number amounts of
    magnitude above 1000, Near-Zero Amount exactly for the amounts of
    magnitude below 1, both regardless of sign; no amount has both flags. *)
Theorem amount_rules_by_magnitude (q : Q) :
  (is_round_large (F64.Fin q) = true <->
     (exists z : Z, q == inject_Z z) /\ 1000 < Qabs q)
  /\ (is_near_zero (F64.Fin q) = true <-> Qabs q < 1)
  /\ is_round_large (F64.Fin q) && is_near_zero (F64.Fin q) = false.
Proof.
  assert (Hnear : is_near_zero (F64.Fin q) = true <-> Qabs q < 1).
  { unfold is_near_zero. cbn [F64.abs F64.ltb].
    rewrite Qlt_bool_iff, Qred_correct. reflexivity. }
  split; [|split; [exact Hnear|]].
  - rewrite is_round_large_fin. split; intros [H1 H2]; (split; [|assumption]).
    + destruct (Qlt_le_dec q 0) as [Hneg|Hpos].
      * exists (- Qfloor (Qabs q))%Z. rewrite inject_Z_opp, <- H1.
        rewrite Qabs_neg by lra. lra.
      * exists (Qfloor (Qabs q)). rewrite <- H1. now rewrite Qabs_pos.
    + destruct H1 as (z & Hz).
      assert (E : Qabs q == inject_Z (Z.abs z)).
      { rewrite Hz. symmetry. apply Zabs_Qabs. }
      rewrite (Qfloor_comp _ _ E), Qfloor_Z. exact E.
  - destruct (is_round_large (F64.Fin q)) eqn:Er; [|reflexivity].
    apply is_round_large_fin in Er.
    destruct (is_near_zero (F64.Fin q)); [|reflexivity].
    assert (Qabs q < 1) by (apply Hnear; reflexivity). lra.
Qed.

(** ** The division of the imbalance percentage *)

Lemma abs_is_abs_like (x : F64.t) : abs_like (F64.abs x).
Proof.
  destruct x; simpl; try exact I. rewrite Qred_correct. apply Qabs_nonneg.
Qed.

Lemma add_abs_like (x y : F64.t) :
  abs_like x -> abs_like y -> abs_like (F64.add x y).
Proof.
  pose proof threshold_above_100 as HT.
  destruct x as [t| | |], y as [u| | |]; simpl; try tauto.
  intros Ht Hu. destruct (F64.round (t + u)) as [v| | |] eqn:Er; simpl; try exact I.
  - apply round_fin_inv in Er. destruct Er as (-> & _). rewrite Qred_correct. lra.
  - apply round_ninf_inv in Er. lra.
Qed.

Lemma sum_abs_like (xs : list F64.t) :
  forall acc, abs_like acc -> abs_like (fold_left F64.add (map F64.abs xs) acc).
Proof.
  induction xs as [|x xs IH]; intros acc Hacc; simpl; [assumption|].
  apply IH, add_abs_like; [assumption|apply abs_is_abs_like].
Qed.

Lemma sum_zeros (n : nat) :
  fold_left F64.add (repeat F64.zero n) F64.zero = F64.zero.
Proof. induction n as [|n IH]; [reflexivity|exact IH]. Qed.

Lemma imbalance_total (xs : list F64.t) :
  exists r, imbalance (F64.sum xs) (F64.sum (map F64.abs xs)) = inr r.
Proof.
  unfold imbalance, F64.sum.
  pose proof (sum_abs_like xs F64.zero) as Hsum.
  destruct (fold_left F64.add (map F64.abs xs) F64.zero) as [t| | |];
    try (cbn [F64.add epsilon py_truediv bind ret]; eauto; fail).
  simpl in Hsum. specialize (Hsum ltac:(simpl; lra)).
  unfold epsilon. cbn [F64.add].
  destruct (F64.round (t + (1 # 1000000))) as [d| | |] eqn:Er;
    try (cbn [py_truediv bind ret]; eauto; fail).
  apply round_fin_inv in Er. destruct Er as (-> & _).
  unfold py_truediv.
  destruct (Qeq_bool (Qred (t + (1 # 1000000))) 0) eqn:E.
  - apply Qeq_bool_eq in E. rewrite Qred_correct in E. lra.
  - cbn [bind ret]. eauto.
Qed.

(** The epsilon in the denominator does its job: whatever the amounts,
    infinities and NaN included, the division of line 176 never raises
    [ZeroDivisionError]; and for a set of zero amounts of any size, the
    empty one included, the imbalance is 0. *)
Theorem imbalance_never_divides_by_zero :
  (forall xs : list F64.t,
      exists r, imbalance (F64.sum xs) (F64.sum (map F64.abs xs)) = inr r)
  /\ (forall n : nat,
      imbalance (F64.sum (repeat F64.zero n))
                (F64.sum (map F64.abs (repeat F64.zero n))) = inr F64.zero).
Proof.
  split; [exact imbalance_total|].
  intros n. unfold F64.sum.
  replace (map F64.abs (repeat F64.zero n)) with (repeat F64.zero n).
  - rewrite sum_zeros. reflexivity.
  - induction n as [|n IH]; simpl; [reflexivity|]. now rewrite <- IH.
Qed.

(** ** Duplicate and repeating entries *)

Lemma same_cong (a b : F64.t) :
  F64.same a b = true -> forall c, F64.same a c = F64.same b c.
Proof.
  destruct a as [x| | |], b as [y| | |]; simpl; try discriminate; try reflexivity.
  intros H [z| | |]; simpl; try reflexivity.
  apply Qeq_bool_eq in H. now rewrite H.
Qed.

Lemma cell_eqb_cong (a b : cell) :
  cell_eqb a b = true -> forall c, cell_eqb a c = cell_eqb b c.
Proof.
  destruct a, b; simpl; try discriminate; try reflexivity; intros H c.
  - apply String.eqb_eq in H. now subst.
  - apply Z.eqb_eq in H. now subst.
  - destruct c; try reflexivity. now apply same_cong.
  - apply Bool.eqb_prop in H. now subst.
  - apply Z.eqb_eq in H. now subst.
Qed.

Lemma row_eqb_cong (r1 : list cell) :
  forall r2, row_eqb r1 r2 = true -> forall r3, row_eqb r1 r3 = row_eqb r2 r3.
Proof.
  induction r1 as [|a r1 IH]; intros [|b r2] H [|c r3]; simpl in *;
    try discriminate; try reflexivity.
  apply andb_true_iff in H. destruct H as [Hab Hr].
  now rewrite (cell_eqb_cong _ _ Hab), (IH _ Hr).
Qed.

Lemma another_match {A} (p : A -> bool) (l : list A) :
  (1 < List.length (filter p l))%nat ->
  forall i, exists j x, j <> i /\ nth_error l j = Some x /\ p x = true.
Proof.
  induction l as [|x l IH]; simpl; [lia|].
  destruct (p x) eqn:Hp; simpl; intros Hlen i.
  - destruct i as [|i].
    + destruct (filter p l) as [|y ys] eqn:Hf; [simpl in Hlen; lia|].
      assert (Hy : In y (filter p l)) by (rewrite Hf; now left).
      apply filter_In in Hy. destruct Hy as [Hin Hpy].
      apply In_nth_error in Hin. destruct Hin as (j & Hj).
      exists (S j), y. repeat split; [lia|assumption|assumption].
    + exists 0%nat, x. repeat split; [lia|assumption].
  - destruct i as [|i].
    + destruct (IH Hlen 0%nat) as (j & y & _ & Hj & Hy).
      exists (S j), y. repeat split; [lia|assumption|assumption].
    + destruct (IH Hlen i) as (j & y & Hne & Hj & Hy).
      exists (S j), y. repeat split; [lia|assumption|assumption].
Qed.

(** A row is never flagged alone by [is_duplicated], the test behind both
    Duplicate Entry and Repeating Entry: whenever the flag of a row is
    true, another row with the same key values is flagged too. *)
Theorem duplicated_rows_come_in_groups
    (rows : list (list cell)) (flags : list (option bool)) (i : nat) :
  is_duplicated rows = SBoolean flags ->
  nth_error flags i = Some (Some true) ->
  exists j r r',
    j <> i
    /\ nth_error rows i = Some r
    /\ nth_error rows j = Some r'
    /\ row_eqb r r' = true
    /\ nth_error flags j = Some (Some true).
Proof.
  unfold is_duplicated. intros E Hi. inversion E. subst flags. clear E.
  rewrite nth_error_map in Hi.
  destruct (nth_error rows i) as [r|] eqn:Hr; [|discriminate].
  simpl in Hi.
  assert (Hcount : Nat.ltb 1 (count_rows r rows) = true) by congruence.
  clear Hi.
  assert (Hlt : (1 < count_rows r rows)%nat) by now apply Nat.ltb_lt.
  destruct (another_match (row_eqb r) rows Hlt i) as (j & r' & Hne & Hj & Heq).
  exists j, r, r'.
  split; [exact Hne|]. split; [reflexivity|]. split; [exact Hj|].
  split; [exact Heq|].
  rewrite nth_error_map, Hj. simpl. do 2 f_equal.
  unfold count_rows in *.
  rewrite (filter_ext (row_eqb r') (row_eqb r)).
  - exact Hcount.
  - intros x. symmetry. now apply row_eqb_cong.
Qed.

Lemma duplicated_rows_come_in_groups_witness :
  exists j r r',
    j <> 0%nat
    /\ nth_error [[CStr "a"; CNull]; [CStr "b"; CNull]; [CStr "a"; CNull]] 0 = Some r
    /\ nth_error [[CStr "a"; CNull]; [CStr "b"; CNull]; [CStr "a"; CNull]] j = Some r'
    /\ row_eqb r r' = true
    /\ nth_error [Some true; Some false; Some true] j = Some (Some true).
Proof.
  apply (@duplicated_rows_come_in_groups
           [[CStr "a"; CNull]; [CStr "b"; CNull]; [CStr "a"; CNull]]
           [Some true; Some false; Some true] 0); reflexivity.
Defined.

(** ** The derived flag and the summary *)

Lemma anomaly_cols_with_flags (cleaned : frame) (exprs : list (string * series)) :
  incl (columns cleaned) canonical_names ->
  map fst exprs = flag_names ->
  anomaly_cols (with_columns exprs cleaned) = entry_flags.
Proof.
  intros Hcan He. unfold anomaly_cols.
  rewrite columns_with_columns.
  - rewrite He, filter_app.
    replace (filter _ (columns cleaned)) with (@nil string); [reflexivity|].
    symmetry. induction (columns cleaned) as [|c cs IH]; [reflexivity|].
    simpl. rewrite canonical_names_not_entries by (apply Hcan; now left).
    apply IH. intros x Hx. apply Hcan. now right.
  - rewrite He. unfold flag_names.
    repeat (constructor; [simpl; intuition discriminate|]). constructor.
  - rewrite He. intros n Hn Hin. apply (canonical_names_not_flags Hn).
    now apply Hcan.
Qed.

Lemma struct_is_duplicated_boolean (names : list string) (df : frame) (s : series) :
  struct_is_duplicated names df = inr s -> exists xs, s = SBoolean xs.
Proof.
  unfold struct_is_duplicated. destruct (get_columns names df); [discriminate|].
  cbn [bind ret]. intros H. inversion H. unfold is_duplicated. eauto.
Qed.

Lemma weekend_entry_boolean (cleaned : frame) (s : series) :
  weekend_entry cleaned = inr s -> exists xs, s = SBoolean xs.
Proof.
  unfold weekend_entry, lit_false.
  destruct (has_column "posting_date" cleaned).
  - destruct (get_column "posting_date" cleaned) as [|d]; [discriminate|].
    cbn [bind]. destruct d; try discriminate. intros H. inversion H. eauto.
  - intros H. inversion H. eauto.
Qed.

Lemma duplicate_entry_boolean (cleaned : frame) (s : series) :
  duplicate_entry cleaned = inr s -> exists xs, s = SBoolean xs.
Proof.
  unfold duplicate_entry, lit_false.
  destruct (Nat.ltb 0 _).
  - apply struct_is_duplicated_boolean.
  - intros H. inversion H. eauto.
Qed.

Lemma high_value_entry_boolean (pl : polars) (cleaned : frame) (s : series) :
  high_value_entry pl cleaned = inr s -> exists xs, s = SBoolean xs.
Proof.
  unfold high_value_entry, lit_false.
  destruct (Nat.ltb 10 (height cleaned)).
  - destruct (high_value_threshold pl cleaned); [discriminate|]. cbn [bind].
    destruct (amounts cleaned); [discriminate|]. cbn [bind ret].
    intros H. inversion H. eauto.
  - intros H. inversion H. eauto.
Qed.

Lemma repeating_entry_boolean (cleaned : frame) (s : series) :
  repeating_entry cleaned = inr s -> exists xs, s = SBoolean xs.
Proof.
  unfold repeating_entry, lit_false.
  destruct (has_column "description" cleaned && has_column "account" cleaned).
  - apply struct_is_duplicated_boolean.
  - intros H. inversion H. eauto.
Qed.

(** For every cleaned table with canonical column names, [Has Anomaly] is
    the row-wise OR of Weekend Entry, Duplicate Entry, High-Value Entry and
    Repeating Entry, in this order, and of nothing else. *)
Theorem has_anomaly_is_or_of_entry_flags
    (pl : polars) (cleaned : frame) (cols : list string) (results : frame) :
  incl (columns cleaned) canonical_names ->
  build_results pl cleaned = inr (cols, results) ->
  exists w d h r,
    weekend_entry cleaned = inr (SBoolean w)
    /\ duplicate_entry cleaned = inr (SBoolean d)
    /\ high_value_entry pl cleaned = inr (SBoolean h)
    /\ repeating_entry cleaned = inr (SBoolean r)
    /\ get_column "Has Anomaly" results =
         inr (SBoolean (zip_or w (zip_or d (zip_or h r)))).
Proof.
  intros Hcan. unfold build_results.
  destruct (anomaly_exprs pl cleaned) as [|exprs] eqn:He; [discriminate|].
  cbn [bind].
  rewrite (@anomaly_cols_with_flags cleaned exprs Hcan (anomaly_exprs_names _ _ He)).
  unfold anomaly_exprs in He.
  destruct (round_large_amount cleaned) as [|f1]; [discriminate|].
  destruct (near_zero_amount cleaned) as [|f2]; [discriminate|].
  destruct (suspicious_description cleaned) as [|f3]; [discriminate|].
  destruct (weekend_entry cleaned) as [|f4] eqn:H4; [discriminate|].
  destruct (duplicate_entry cleaned) as [|f5] eqn:H5; [discriminate|].
  destruct (high_value_entry pl cleaned) as [|f6] eqn:H6; [discriminate|].
  destruct (repeating_entry cleaned) as [|f7] eqn:H7; [discriminate|].
  cbn [bind ret] in He. inversion He. subst exprs. clear He.
  destruct (weekend_entry_boolean _ H4) as (w & ->).
  destruct (duplicate_entry_boolean _ H5) as (d & ->).
  destruct (high_value_entry_boolean _ _ H6) as (h & ->).
  destruct (repeating_entry_boolean _ H7) as (r & ->).
  unfold flag_names, with_columns, entry_flags.
  cbn [combine fold_left fst snd any_horizontal].
  repeat (rewrite ?get_column_with_column_same;
          rewrite ?get_column_with_column_other by reflexivity;
          cbn [bind ret bool_values]).
  intros H. inversion H. subst.
  exists w, d, h, r. repeat split. apply get_column_with_column_same.
Qed.

Lemma has_anomaly_is_or_of_entry_flags_witness :
  exists w d h r,
    weekend_entry outlier_cleaned = inr (SBoolean w)
    /\ duplicate_entry outlier_cleaned = inr (SBoolean d)
    /\ high_value_entry reference_polars outlier_cleaned = inr (SBoolean h)
    /\ repeating_entry outlier_cleaned = inr (SBoolean r)
    /\ get_column "Has Anomaly"
         (match build_results reference_polars outlier_cleaned with
          | inr flagged => snd flagged
          | inl _ => []
          end)
       = inr (SBoolean (zip_or w (zip_or d (zip_or h r)))).
Proof.
  apply (@has_anomaly_is_or_of_entry_flags reference_polars outlier_cleaned
           entry_flags).
  - intros x [<-|[]]. now left.
  - vm_compute. reflexivity.
Defined.

Lemma filter_by_height (name : string) (df hit : frame) :
  filter_by name df = inr hit -> (height hit <= height df)%nat.
Proof.
  unfold filter_by. destruct (get_column name df) as [|s]; [discriminate|].
  cbn [bind]. destruct (bool_values "filter" s); [discriminate|].
  cbn [bind ret]. intros H. inversion H. apply height_filter_frame.
Qed.

Lemma chart_counts_bounded (anomalies : frame) (cols : list string) :
  forall charts,
    chart_counts cols anomalies = inr charts ->
    map fst charts = cols
    /\ Forall (fun kv => (snd kv <= height anomalies)%nat) charts.
Proof.
  induction cols as [|col cols IH]; intros charts; simpl.
  - intros H. inversion H. split; [reflexivity|constructor].
  - destruct (filter_by col anomalies) as [|hit] eqn:Hhit; [discriminate|].
    cbn [bind]. destruct (chart_counts cols anomalies) as [|more]; [discriminate|].
    cbn [bind ret]. intros H. inversion H.
    destruct (IH more eq_refl) as [Hn Hb]. split.
    + simpl. now rewrite Hn.
    + constructor; [|assumption]. simpl. eapply filter_by_height. eassumption.
Qed.

(** The numbers of a success payload agree with each other: Anomalies Found
    is at most Total Entries and is the number of rows in [anomalies_data],
    [charts.anomalies] has one entry per name of [anomaly_cols], in that
    order, and no per-flag count exceeds Anomalies Found. *)
Theorem summary_counts_are_consistent
    (cols : list string) (results : frame) (p : payload) :
  summarize cols results = inr p ->
  total_entries (p_summary p) = height results
  /\ (anomalies_found (p_summary p) <= total_entries (p_summary p))%nat
  /\ List.length (anomalies_data p) = anomalies_found (p_summary p)
  /\ map fst (charts_anomalies p) = cols
  /\ Forall (fun kv => (snd kv <= anomalies_found (p_summary p))%nat)
            (charts_anomalies p).
Proof.
  unfold summarize.
  destruct (filter_by "Has Anomaly" results) as [|anomalies] eqn:Hf; [discriminate|].
  cbn [bind]. destruct (amounts results) as [|a]; [discriminate|]. cbn [bind].
  destruct (imbalance _ _) as [|r]; [discriminate|]. cbn [bind].
  destruct (chart_counts cols anomalies) as [|charts] eqn:Hc; [discriminate|].
  cbn [bind ret]. intros H. inversion H. subst. clear H. simpl.
  destruct (chart_counts_bounded _ _ Hc) as [Hn Hb].
  split; [reflexivity|]. split; [eapply filter_by_height; eassumption|].
  split; [|split; assumption].
  unfold to_dicts. now rewrite length_map, length_seq.
Qed.

Lemma summary_counts_are_consistent_witness :
  exists p,
    summarize entry_flags weekend_results = inr p
    /\ total_entries (p_summary p) = height weekend_results
    /\ (anomalies_found (p_summary p) <= total_entries (p_summary p))%nat
    /\ List.length (anomalies_data p) = anomalies_found (p_summary p)
    /\ map fst (charts_anomalies p) = entry_flags
    /\ Forall (fun kv => (snd kv <= anomalies_found (p_summary p))%nat)
              (charts_anomalies p).
Proof.
  eexists.
  assert (E : summarize entry_flags weekend_results = inr _)
    by (vm_compute; reflexivity).
  split; [exact E|].
  exact (@summary_counts_are_consistent entry_flags weekend_results _ E).
Defined.

(** ** From the raw table to the cleaned table *)

Lemma cast_f64_length (pl : polars) (s : series) :
  List.length (cast_f64 pl s) = series_len s.
Proof. unfold series_len. destruct s; simpl; now rewrite ?length_map. Qed.

Lemma amount_series_length (pl : polars) (df_full : frame) amount :
  wf_frame df_full ->
  amount_series pl df_full = inr amount ->
  List.length amount = height df_full.
Proof.
  intros Hwf Ha.
  destruct (debit_candidates df_full) as [|dr drs] eqn:Hd;
    [|destruct (credit_candidates df_full) as [|cr crs] eqn:Hc].
  - unfold amount_series in Ha. rewrite Hd in Ha.
    destruct (amount_candidates df_full) as [|am ams] eqn:Hm; [discriminate|].
    destruct (amount_series_single pl df_full (amt_col := am) (rest := ams))
      as (s & Hs & E); auto.
    unfold amount_series in E. rewrite Hd, Hm in E. rewrite E in Ha.
    inversion Ha. rewrite cast_f64_length. eapply wf_column_len; eassumption.
  - unfold amount_series in Ha. rewrite Hd, Hc in Ha.
    destruct (amount_candidates df_full) as [|am ams] eqn:Hm; [discriminate|].
    destruct (amount_series_single pl df_full (amt_col := am) (rest := ams))
      as (s & Hs & E); auto.
    unfold amount_series in E. rewrite Hd, Hc, Hm in E. rewrite E in Ha.
    inversion Ha. rewrite cast_f64_length. eapply wf_column_len; eassumption.
  - destruct (amount_series_pair pl df_full Hd Hc) as (dr_s & cr_s & Hdr & Hcr & E).
    rewrite E in Ha. inversion Ha.
    assert (Hldr : series_len dr_s = height df_full)
      by (eapply wf_column_len; eassumption).
    assert (Hlcr : series_len cr_s = height df_full)
      by (eapply wf_column_len; eassumption).
    rewrite series_sub_length; rewrite !money_column_length; congruence.
Qed.

Lemma clean_as_filter (selected cleaned : frame) :
  clean selected = inr cleaned ->
  exists mask, cleaned = filter_frame mask selected.
Proof.
  intros H. destruct (clean_result _ H) as (a & _ & [(_ & ->) | (d & _ & ->)]).
  - eauto.
  - rewrite is_not_null_filter, filter_frame_twice. eauto.
Qed.

Lemma normalize_dates_head (pl : polars) (s : series) (rest : frame) :
  exists rest',
    normalize_dates pl (("amount", s) :: rest) = ("amount", s) :: rest'.
Proof.
  destruct (normalize_dates_cases pl (("amount", s) :: rest))
    as [-> | (xs & _ & ->)]; [eauto|].
  simpl. eauto.
Qed.

(** The cleaned table of a request starts with the Float64 amount column,
    restricted to the surviving rows. *)
Lemma cleaned_shape (pl : polars) (df_full : frame) amount selected cleaned :
  select_frame df_full amount = inr selected ->
  clean (normalize_dates pl selected) = inr cleaned ->
  exists mask rest,
    cleaned = ("amount", SFloat64 (filter_mask mask amount)) :: rest.
Proof.
  intros Hsel Hclean.
  destruct (select_frame_shape df_full amount) as (rest & Hshape & _).
  rewrite Hshape in Hsel. inversion Hsel. subst selected.
  destruct (normalize_dates_head pl (SFloat64 amount) rest) as (rest' & Hn).
  rewrite Hn in Hclean.
  destruct (clean_as_filter _ Hclean) as (mask & ->). simpl. eauto.
Qed.

Lemma with_column_head (name n : string) (x s : series) (rest : frame) :
  String.eqb n name = false ->
  with_column name x ((n, s) :: rest) = (n, s) :: with_column name x rest.
Proof. intros H. simpl. now rewrite H. Qed.

Lemma with_columns_head (news : list (string * series)) :
  forall (n : string) (s : series) (rest : frame),
    ~ In n (map fst news) ->
    exists rest', with_columns news ((n, s) :: rest) = (n, s) :: rest'.
Proof.
  unfold with_columns.
  induction news as [|[m x] news IH]; intros n s rest Hn; simpl; [eauto|].
  destruct (String.eqb n m) eqn:E.
  - apply String.eqb_eq in E. subst. simpl in Hn. tauto.
  - apply IH. simpl in Hn. tauto.
Qed.

Lemma build_results_height (pl : polars) (cleaned : frame) flagged s rest :
  cleaned = ("amount", s) :: rest ->
  build_results pl cleaned = inr flagged ->
  height (snd flagged) = height cleaned.
Proof.
  intros -> H. unfold build_results in H.
  destruct (anomaly_exprs pl (("amount", s) :: rest)) as [|exprs] eqn:He;
    [discriminate|].
  cbn [bind] in H.
  destruct (any_horizontal _ _) as [|has]; [discriminate|].
  cbn [bind ret] in H. inversion H. subst flagged. clear H. simpl snd.
  destruct (with_columns_head exprs "amount" s rest) as (rest' & ->).
  - rewrite (anomaly_exprs_names _ _ He). simpl. intuition discriminate.
  - reflexivity.
Qed.

Lemma summarize_total_entries (cols : list string) (results : frame) (p : payload) :
  summarize cols results = inr p -> total_entries (p_summary p) = height results.
Proof.
  unfold summarize.
  destruct (filter_by "Has Anomaly" results); [discriminate|]. cbn [bind].
  destruct (amounts results); [discriminate|]. cbn [bind].
  destruct (imbalance _ _); [discriminate|]. cbn [bind].
  destruct (chart_counts cols _); [discriminate|].
  cbn [bind ret]. intros H. inversion H. reflexivity.
Qed.

(** Total Entries of a success payload never exceeds the number of rows of
    the uploaded table: analysis only ever drops rows. *)
Theorem total_entries_at_most_raw_rows (pl : polars) (df_full : frame) (p : payload) :
  wf_frame df_full ->
  analyze_je pl df_full = Success p ->
  (total_entries (p_summary p) <= height df_full)%nat.
Proof.
  intros Hwf. unfold analyze_je, analyze_body, analyze_rest.
  destruct (Nat.eqb (height df_full) 0); [discriminate|].
  destruct (amount_series pl df_full) as [|amount] eqn:Ha; [discriminate|].
  cbn [bind].
  destruct (select_frame df_full amount) as [|selected] eqn:Hs; [discriminate|].
  cbn [bind].
  destruct (clean (normalize_dates pl selected)) as [|cleaned] eqn:Hc; [discriminate|].
  cbn [bind].
  destruct (build_results pl cleaned) as [|flagged] eqn:Hb; [discriminate|].
  cbn [bind].
  destruct (summarize (fst flagged) (snd flagged)) as [|p'] eqn:Hp; [discriminate|].
  intros E. inversion E. subst p'.
  rewrite (summarize_total_entries _ _ Hp).
  edestruct cleaned_shape as (mask & rest & Hshape); [exact Hs|exact Hc|].
  rewrite (@build_results_height pl cleaned flagged _ _ Hshape Hb), Hshape.
  rewrite <- (@amount_series_length pl df_full amount Hwf Ha).
  unfold height, series_len. simpl. rewrite length_map. apply filter_mask_length.
Qed.

Lemma total_entries_at_most_raw_rows_witness :
  exists p,
    analyze_je reference_polars dirty_table = Success p
    /\ (total_entries (p_summary p) <= height dirty_table)%nat.
Proof.
  eexists. split; [vm_compute; reflexivity|].
  apply (@total_entries_at_most_raw_rows reference_polars dirty_table).
  - repeat constructor.
  - vm_compute. reflexivity.
Defined.

(** ** When the analysis succeeds *)

Lemma get_column_absent (name : string) (df : frame) :
  ~ In name (columns df) ->
  get_column name df = inl (PolarsError (ColumnNotFound name)).
Proof.
  induction df as [|[n s] rest IH]; simpl; [reflexivity|].
  intros H. destruct (String.eqb n name) eqn:E.
  - apply String.eqb_eq in E. tauto.
  - apply IH. tauto.
Qed.

Lemma select_keys_get (df : frame) (fields : list (string * string)) :
  NoDup (map snd fields) ->
  forall keys col alias,
    select_keys df fields = inr keys ->
    In (col, alias) fields ->
    get_column alias keys =
      match candidates [col] df with
      | c :: _ => get_column c df
      | [] => inl (PolarsError (ColumnNotFound alias))
      end.
Proof.
  induction fields as [|[col' alias'] rest IH]; intros Hnd keys col alias Hk Hin;
    [destruct Hin|].
  inversion Hnd as [|? ? Hnot Hnd']. subst.
  assert (Hcase : (col = col' /\ alias = alias')
                  \/ (alias <> alias' /\ In (col, alias) rest)).
  { destruct Hin as [E|Hin]; [inversion E; auto|].
    right. split; [|assumption]. intros ->. apply Hnot.
    change alias' with (snd (col, alias')). now apply in_map. }
  simpl in Hk.
  destruct (candidates [col'] df) as [|c cs] eqn:Hc.
  - destruct Hcase as [(-> & ->) | (Hne & Hin')].
    + rewrite Hc. apply get_column_absent. intros H.
      apply (select_keys_names _ _ Hk) in H. contradiction.
    + now apply IH.
  - destruct (get_column c df) as [|s] eqn:Hs; [discriminate|]. cbn [bind] in Hk.
    destruct (select_keys df rest) as [|more] eqn:Hm; [discriminate|].
    cbn [bind ret] in Hk. inversion Hk. subst keys. simpl.
    destruct Hcase as [(-> & ->) | (Hne & Hin')].
    + rewrite String.eqb_refl, Hc. now rewrite Hs.
    + replace (String.eqb alias' alias) with false
        by (symmetry; apply String.eqb_neq; congruence).
      now apply IH.
Qed.

Lemma select_frame_dtypes (df_full : frame) amount selected :
  select_frame df_full amount = inr selected ->
  column_dtype is_utf8 "description" selected
    = role_dtype is_utf8 ["description"] df_full
  /\ column_dtype (fun s => is_utf8 s || is_datetime s) "posting_date" selected
    = role_dtype (fun s => is_utf8 s || is_datetime s)
                 ["date"; "effective"; "posted"] df_full.
Proof.
  unfold select_frame, column_dtype, role_dtype. intros H.
  fold (date_candidates df_full).
  destruct (select_keys df_full key_fields) as [|keys] eqn:Hk.
  { destruct (date_candidates df_full) as [|d ds];
      [|destruct (get_column d df_full)]; discriminate. }
  assert (Hnd : NoDup (map snd key_fields)).
  { simpl. repeat (constructor; [simpl; intuition discriminate|]). constructor. }
  assert (Hdesc := @select_keys_get df_full key_fields Hnd keys
                     "description" "description" Hk ltac:(simpl; tauto)).
  assert (Hnodate : get_column "posting_date" keys
                    = inl (PolarsError (ColumnNotFound "posting_date"))).
  { apply get_column_absent. intros Hin.
    apply (select_keys_names _ _ Hk) in Hin. simpl in Hin. intuition discriminate. }
  destruct (date_candidates df_full) as [|d ds] eqn:Hd.
  - cbn [bind ret app] in H. inversion H. subst selected. simpl.
    rewrite Hdesc, Hnodate. split; [|reflexivity].
    destruct (candidates ["description"] df_full) as [|c cs] eqn:Hc; [reflexivity|].
    destruct (first_candidate _ _ Hc) as (s & Hs & _). now rewrite Hs.
  - destruct (first_candidate _ _ Hd) as (sd & Hsd & _).
    rewrite Hsd in H |- *. cbn [bind ret app] in H. inversion H. subst selected.
    simpl. rewrite Hdesc. split; [|reflexivity].
    destruct (candidates ["description"] df_full) as [|c cs] eqn:Hc; [reflexivity|].
    destruct (first_candidate _ _ Hc) as (s & Hs & _). now rewrite Hs.
Qed.

Lemma normalize_dates_dtypes (pl : polars) (selected : frame) :
  column_dtype is_utf8 "description" (normalize_dates pl selected)
    = column_dtype is_utf8 "description" selected
  /\ column_dtype is_datetime "posting_date" (normalize_dates pl selected)
    = column_dtype (fun s => is_utf8 s || is_datetime s) "posting_date" selected.
Proof.
  unfold column_dtype. split.
  - destruct (normalize_dates_cases pl selected) as [-> | (xs & _ & ->)];
      [reflexivity|].
    now rewrite get_column_with_column_other.
  - destruct (get_column "posting_date" selected) as [e|s] eqn:Hs.
    + rewrite normalize_dates_no_date, Hs; [reflexivity|].
      destruct (has_column "posting_date" selected) eqn:Hh; [|reflexivity].
      destruct (get_column_in "posting_date" selected) as (s & Hs' & _);
        [now apply has_column_in|congruence].
    + destruct s;
        try (rewrite (normalize_dates_not_utf8 pl _ Hs); [now rewrite Hs|discriminate]).
      rewrite (normalize_dates_utf8 pl _ Hs), get_column_with_column_same.
      reflexivity.
Qed.

Lemma filter_frame_dtype (allowed : series -> bool) (name : string)
    (mask : list bool) (df : frame) :
  (forall s, allowed (filter_series mask s) = allowed s) ->
  column_dtype allowed name (filter_frame mask df) = column_dtype allowed name df.
Proof.
  intros H. unfold column_dtype. rewrite get_column_filter_frame.
  destruct (get_column name df); simpl; [reflexivity|apply H].
Qed.

Lemma clean_total (selected : frame) (a : series) :
  get_column "amount" selected = inr a ->
  exists cleaned, clean selected = inr cleaned.
Proof.
  intros Ha. unfold clean. rewrite Ha. cbn [bind].
  rewrite has_column_filter_frame, get_column_filter_frame.
  destruct (has_column "posting_date" selected) eqn:Hd; [|eauto].
  destruct (get_column_in "posting_date" selected) as (d & Hs & _);
    [now apply has_column_in|].
  rewrite Hs. cbn [bind ret]. eauto.
Qed.

Lemma get_columns_total (names : list string) (df : frame) :
  incl names (columns df) -> exists ss, get_columns names df = inr ss.
Proof.
  induction names as [|n names IH]; intros H; simpl; [eauto|].
  destruct (get_column_in n df) as (s & Hs & _); [apply H; now left|].
  destruct IH as (ss & Hss); [intros x Hx; apply H; now right|].
  rewrite Hs, Hss. cbn [bind ret]. eauto.
Qed.

Lemma struct_is_duplicated_total (names : list string) (df : frame) :
  incl names (columns df) -> exists s, struct_is_duplicated names df = inr s.
Proof.
  intros H. unfold struct_is_duplicated.
  edestruct get_columns_total as (ss & Hss); [exact H|].
  rewrite Hss. cbn [bind ret]. eauto.
Qed.

Lemma suspicious_description_ok (cleaned : frame) :
  (exists s, suspicious_description cleaned = inr s)
  <-> column_dtype is_utf8 "description" cleaned = true.
Proof.
  unfold suspicious_description, column_dtype.
  destruct (has_column "description" cleaned) eqn:Hh.
  - destruct (get_column_in "description" cleaned) as (s & Hs & _);
      [now apply has_column_in|].
    rewrite Hs. cbn [bind]. destruct s; simpl; split; eauto;
      try discriminate; intros (x & Hx); discriminate.
  - destruct (get_column "description" cleaned) as [|s] eqn:Hs.
    + split; eauto.
    + apply get_column_has in Hs. congruence.
Qed.

Lemma weekend_entry_ok (cleaned : frame) :
  (exists s, weekend_entry cleaned = inr s)
  <-> column_dtype is_datetime "posting_date" cleaned = true.
Proof.
  unfold weekend_entry, column_dtype.
  destruct (has_column "posting_date" cleaned) eqn:Hh.
  - destruct (get_column_in "posting_date" cleaned) as (s & Hs & _);
      [now apply has_column_in|].
    rewrite Hs. cbn [bind]. destruct s; simpl; split; eauto;
      try discriminate; intros (x & Hx); discriminate.
  - destruct (get_column "posting_date" cleaned) as [|s] eqn:Hs.
    + split; eauto.
    + apply get_column_has in Hs. congruence.
Qed.

(** On a cleaned table the seven rules can be evaluated exactly when the
    description is a string column (or absent) and the posting date a
    datetime column (or absent). *)
Lemma anomaly_exprs_ok (pl : polars) (cleaned : frame) xs rest :
  cleaned = ("amount", SFloat64 xs) :: rest ->
  (exists exprs, anomaly_exprs pl cleaned = inr exprs)
  <-> column_dtype is_utf8 "description" cleaned
      && column_dtype is_datetime "posting_date" cleaned = true.
Proof.
  intros Hshape.
  assert (Hamt : amounts cleaned = inr xs) by (subst; reflexivity).
  assert (H1 : exists f, round_large_amount cleaned = inr f).
  { unfold round_large_amount. rewrite Hamt. cbn [bind ret]. eauto. }
  assert (H2 : exists f, near_zero_amount cleaned = inr f).
  { unfold near_zero_amount. rewrite Hamt. cbn [bind ret]. eauto. }
  assert (H5 : exists f, duplicate_entry cleaned = inr f).
  { unfold duplicate_entry. destruct (Nat.ltb 0 _); [|eauto].
    apply struct_is_duplicated_total. intros x Hx.
    apply filter_In in Hx. tauto. }
  assert (H6 : exists f, high_value_entry pl cleaned = inr f).
  { unfold high_value_entry, high_value_threshold.
    destruct (Nat.ltb 10 (height cleaned)); [|eauto].
    rewrite Hamt. cbn [bind ret]. eauto. }
  assert (H7 : exists f, repeating_entry cleaned = inr f).
  { unfold repeating_entry.
    destruct (has_column "description" cleaned) eqn:Hd; [|simpl; eauto].
    destruct (has_column "account" cleaned) eqn:Ha; [|simpl; eauto].
    simpl. apply struct_is_duplicated_total.
    intros x [<-|[<-|[<-|[]]]].
    - now apply has_column_in.
    - subst cleaned. now left.
    - now apply has_column_in. }
  destruct H1 as (f1 & H1), H2 as (f2 & H2), H5 as (f5 & H5),
           H6 as (f6 & H6), H7 as (f7 & H7).
  rewrite andb_true_iff, <- suspicious_description_ok, <- weekend_entry_ok.
  unfold anomaly_exprs. rewrite H1, H2. cbn [bind].
  destruct (suspicious_description cleaned) as [e3|f3]; cbn [bind].
  { split; [intros (x & Hx); discriminate|].
    intros [(s & Hs) _]. discriminate. }
  destruct (weekend_entry cleaned) as [e4|f4]; cbn [bind].
  { split; [intros (x & Hx); discriminate|].
    intros [_ (s & Hs)]. discriminate. }
  rewrite H5, H6, H7. cbn [bind ret]. split; eauto.
Qed.

Lemma chart_counts_ok (anomalies : frame) (cols : list string) :
  (forall col, In col cols ->
     exists b, get_column col anomalies = inr (SBoolean b)) ->
  exists charts, chart_counts cols anomalies = inr charts.
Proof.
  induction cols as [|col cols IH]; intros H; simpl; [eauto|].
  destruct (H col) as (b & Hb); [now left|].
  destruct IH as (charts & Hc); [intros x Hx; apply H; now right|].
  unfold filter_by. rewrite Hb. cbn [bind ret bool_values]. rewrite Hc.
  cbn [bind ret]. eauto.
Qed.

Lemma summarize_ok (cols : list string) (results : frame) xs has :
  get_column "amount" results = inr (SFloat64 xs) ->
  get_column "Has Anomaly" results = inr (SBoolean has) ->
  (forall col, In col cols ->
     exists b, get_column col results = inr (SBoolean b)) ->
  exists p, summarize cols results = inr p.
Proof.
  intros Ha Hh Hcols. unfold summarize, filter_by, amounts.
  rewrite Hh, Ha. cbn [bind ret bool_values float_values].
  destruct (imbalance_total (somes xs)) as (r & ->). cbn [bind].
  destruct (chart_counts_ok (filter_frame (true_mask has) results) cols)
    as (charts & Hc).
  { intros col Hin. destruct (Hcols col Hin) as (b & Hb).
    rewrite get_column_filter_frame, Hb. cbn [bind ret]. simpl. eauto. }
  unfold filter_by in Hc. rewrite Hc. cbn [bind ret]. eauto.
Qed.

Lemma build_results_ok (pl : polars) (cleaned : frame) xs rest exprs :
  cleaned = ("amount", SFloat64 xs) :: rest ->
  incl (columns cleaned) canonical_names ->
  anomaly_exprs pl cleaned = inr exprs ->
  exists results has,
    build_results pl cleaned = inr (entry_flags, results)
    /\ get_column "amount" results = inr (SFloat64 xs)
    /\ get_column "Has Anomaly" results = inr (SBoolean has)
    /\ (forall col, In col entry_flags ->
          exists b, get_column col results = inr (SBoolean b)).
Proof.
  intros Hshape Hcan He. unfold build_results. rewrite He. cbn [bind].
  rewrite (@anomaly_cols_with_flags cleaned exprs Hcan (anomaly_exprs_names _ _ He)).
  unfold anomaly_exprs in He.
  destruct (round_large_amount cleaned) as [|f1]; [discriminate|].
  destruct (near_zero_amount cleaned) as [|f2]; [discriminate|].
  destruct (suspicious_description cleaned) as [|f3]; [discriminate|].
  destruct (weekend_entry cleaned) as [|f4] eqn:H4; [discriminate|].
  destruct (duplicate_entry cleaned) as [|f5] eqn:H5; [discriminate|].
  destruct (high_value_entry pl cleaned) as [|f6] eqn:H6; [discriminate|].
  destruct (repeating_entry cleaned) as [|f7] eqn:H7; [discriminate|].
  cbn [bind ret] in He. inversion He. subst exprs. clear He.
  destruct (weekend_entry_boolean _ H4) as (w & ->).
  destruct (duplicate_entry_boolean _ H5) as (d & ->).
  destruct (high_value_entry_boolean _ _ H6) as (h & ->).
  destruct (repeating_entry_boolean _ H7) as (r & ->).
  unfold flag_names, with_columns, entry_flags.
  cbn [combine fold_left fst snd any_horizontal].
  repeat (rewrite ?get_column_with_column_same;
          rewrite ?get_column_with_column_other by reflexivity;
          cbn [bind ret bool_values]).
  do 2 eexists. split; [reflexivity|].
  split; [|split].
  - rewrite !get_column_with_column_other by reflexivity. subst cleaned. reflexivity.
  - apply get_column_with_column_same.
  - intros col [<-|[<-|[<-|[<-|[]]]]];
      repeat (rewrite ?get_column_with_column_same;
              rewrite ?get_column_with_column_other by reflexivity); eauto.
Qed.

Lemma dtypes_of_cleaned (pl : polars) (df_full : frame) amount selected cleaned :
  select_frame df_full amount = inr selected ->
  clean (normalize_dates pl selected) = inr cleaned ->
  column_dtype is_utf8 "description" cleaned
    && column_dtype is_datetime "posting_date" cleaned
  = dtypes_supported df_full.
Proof.
  intros Hsel Hclean.
  destruct (select_frame_dtypes _ _ Hsel) as [Hd1 Hp1].
  destruct (normalize_dates_dtypes pl selected) as [Hd2 Hp2].
  destruct (clean_as_filter _ Hclean) as (mask & ->).
  rewrite !filter_frame_dtype by (intros []; reflexivity).
  unfold dtypes_supported. rewrite Hd2, Hp2, Hd1, Hp1. apply andb_comm.
Qed.

(** A request on a non-empty table with an amount-bearing column succeeds
    exactly when the column taken as the date holds strings or datetimes
    and the column taken as the description holds strings (or there is no
    such column): nothing but these two dtypes can make the analysis
    fail. *)
Theorem analysis_succeeds_iff_dtypes_supported (pl : polars) (df_full : frame) :
  height df_full <> 0%nat ->
  ~ no_amount_column df_full ->
  (exists p, analyze_je pl df_full = Success p)
  <-> dtypes_supported df_full = true.
Proof.
  intros Hh Hamt. unfold analyze_je, analyze_body, analyze_rest.
  replace (Nat.eqb (height df_full) 0) with false
    by (symmetry; now apply Nat.eqb_neq).
  destruct (amount_series_cases pl df_full) as [(Hno & _) | (_ & amount & Ha)];
    [contradiction|].
  rewrite Ha. cbn [bind].
  destruct (select_frame_shape df_full amount) as (rest & Hsel & _ & Hnames).
  rewrite Hsel. cbn [bind].
  destruct (normalize_dates_head pl (SFloat64 amount) rest) as (rest' & Hn).
  destruct (@clean_total (normalize_dates pl (("amount", SFloat64 amount) :: rest))
              (SFloat64 amount)) as (cleaned & Hc).
  { rewrite Hn. reflexivity. }
  rewrite Hc. cbn [bind].
  edestruct cleaned_shape as (mask & crest & Hshape); [exact Hsel|exact Hc|].
  assert (Hcan : incl (columns cleaned) canonical_names).
  { rewrite (clean_columns _ Hc), normalize_dates_columns. exact Hnames. }
  rewrite <- (@dtypes_of_cleaned pl df_full amount _ cleaned Hsel Hc).
  rewrite <- (@anomaly_exprs_ok pl cleaned _ _ Hshape).
  split.
  - intros (p & Hp).
    destruct (anomaly_exprs pl cleaned) as [e|exprs] eqn:He; [|eauto].
    unfold build_results in Hp. rewrite He in Hp. discriminate.
  - intros (exprs & He).
    destruct (@build_results_ok pl cleaned _ _ exprs Hshape Hcan He)
      as (results & has & Hb & Hga & Hgh & Hcols).
    rewrite Hb. cbn [bind fst snd].
    destruct (@summarize_ok entry_flags results _ _ Hga Hgh Hcols) as (p & ->).
    eauto.
Qed.

Lemma analysis_succeeds_iff_dtypes_supported_witness :
  (exists p, analyze_je reference_polars weekend_table = Success p)
  <-> dtypes_supported weekend_table = true.
Proof.
  apply (@analysis_succeeds_iff_dtypes_supported reference_polars weekend_table).
  - discriminate.
  - intros [[H|H] _]; discriminate.
Defined.

(** ** Decoding and export *)

Lemma xls_is_not_xlsx (s : string) :
  endswith ".xls" s = true -> endswith ".xlsx" s = false.
Proof.
  induction s as [|c r IH]; [discriminate|].
  cbn [endswith]. intros H. apply orb_true_iff in H. destruct H as [H|H].
  - apply String.eqb_eq in H. inversion H. subst. reflexivity.
  - rewrite (IH H), orb_false_r.
    destruct (String.eqb (String c r) ".xlsx") eqn:E; [|reflexivity].
    apply String.eqb_eq in E. inversion E. subst. discriminate H.
Qed.

(** The two endpoints do not decode the same files the same way: a file
    whose name ends in [.xls] is read as a spreadsheet by [/analyze] and as
    delimited text by [/export]. *)
Theorem xls_files_are_decoded_differently (filename : string) :
  endswith ".xls" filename = true ->
  analyze_reader filename = ReadExcel /\ export_reader filename = ReadCsv.
Proof.
  intros H. unfold analyze_reader, export_reader.
  rewrite H, (xls_is_not_xlsx _ H). split; reflexivity.
Qed.

Lemma xls_files_are_decoded_differently_witness :
  analyze_reader "ledger.xls" = ReadExcel /\ export_reader "ledger.xls" = ReadCsv.
Proof.
  apply (@xls_files_are_decoded_differently "ledger.xls"). reflexivity.
Defined.

Lemma head_series_len (n : nat) (s : series) :
  series_len (head_series n s) = Nat.min n (series_len s).
Proof.
  unfold series_len. destruct s; simpl; rewrite !length_map; apply length_firstn.
Qed.

Lemma height_head (n : nat) (df : frame) :
  height (head n df) = Nat.min n (height df).
Proof.
  destruct df as [|[c s] rest]; simpl; [now rewrite Nat.min_0_r|].
  apply head_series_len.
Qed.

Lemma get_column_head (n : nat) (name : string) (df : frame) :
  get_column name (head n df) = (s <- get_column name df ;; ret (head_series n s)).
Proof.
  induction df as [|[c s] rest IH]; simpl; [reflexivity|].
  destruct (String.eqb c name); [reflexivity|exact IH].
Qed.

Lemma height_with_column_same_len (name : string) (s : series) (df : frame) :
  series_len s = height df -> height (with_column name s df) = height df.
Proof.
  destruct df as [|[c old] rest]; simpl; [auto|].
  intros H. destruct (String.eqb c name); simpl; [exact H|reflexivity].
Qed.

(** The export never analyses anything.  When a column is named exactly
    [Amount] the workbook gets a third sheet holding the first 50 rows of
    the upload, every one of them labelled [Round Amount] whatever its
    amount; the Summary sheet reports the raw row count. *)
Theorem export_labels_the_first_rows (df : frame) :
  has_column "Amount" df = true ->
  exists sheet,
    export_sheets df =
      [ ("All Transactions", df); ("Summary", summary_sheet df);
        ("Anomalies", sheet) ]
    /\ height sheet = Nat.min 50 (height df)
    /\ get_column "Anomaly" sheet =
         inr (SUtf8 (repeat (Some "Round Amount") (Nat.min 50 (height df))))
    /\ (forall name s,
          name <> "Anomaly" ->
          get_column name df = inr s ->
          get_column name sheet = inr (head_series 50 s)).
Proof.
  intros H. unfold export_sheets. rewrite H. cbv zeta.
  eexists. split; [reflexivity|]. rewrite height_head. split; [|split].
  - rewrite height_with_column_same_len; [apply height_head|].
    unfold series_len. simpl. now rewrite length_map, repeat_length, height_head.
  - apply get_column_with_column_same.
  - intros name s Hne Hs.
    rewrite get_column_with_column_other
      by (apply String.eqb_neq; congruence).
    rewrite get_column_head, Hs. reflexivity.
Qed.

Lemma export_labels_the_first_rows_witness :
  exists sheet,
    export_sheets round_large_table =
      [ ("All Transactions", round_large_table);
        ("Summary", summary_sheet round_large_table);
        ("Anomalies", sheet) ]
    /\ height sheet = Nat.min 50 (height round_large_table)
    /\ get_column "Anomaly" sheet =
         inr (SUtf8 (repeat (Some "Round Amount")
                            (Nat.min 50 (height round_large_table))))
    /\ (forall name s,
          name <> "Anomaly" ->
          get_column name round_large_table = inr s ->
          get_column name sheet = inr (head_series 50 s)).
Proof.
  apply (@export_labels_the_first_rows round_large_table). reflexivity.
Defined.

(** ** Dates that the first format does not match *)

Lemma filter_mask_all_false {A} (mask : list bool) :
  Forall (fun b => b = false) mask ->
  forall xs : list A, filter_mask mask xs = [].
Proof.
  induction 1 as [|b mask Hb _ IH]; intros [|x xs]; simpl; try reflexivity.
  subst b. apply IH.
Qed.

Lemma height_filter_all_false (mask : list bool) (df : frame) :
  Forall (fun b => b = false) mask -> height (filter_frame mask df) = 0%nat.
Proof.
  intros H. destruct df as [|[n s] rest]; [reflexivity|].
  unfold height, series_len. simpl.
  destruct s; simpl; now rewrite filter_mask_all_false.
Qed.

(** Because only the first format is ever applied to a string date column,
    a table none of whose dates is written in that format ([%Y-%m-%d])
    loses every row in cleaning, whichever of the other nine formats the
    dates are in. *)
Theorem unmatched_dates_drop_every_row
    (pl : polars) (selected cleaned : frame) (xs : list (option string)) :
  get_column "posting_date" selected = inr (SUtf8 xs) ->
  (forall text, In (Some text) xs -> strptime pl "%Y-%m-%d" text = None) ->
  clean (normalize_dates pl selected) = inr cleaned ->
  height cleaned = 0%nat.
Proof.
  intros Hs Hnone Hclean.
  rewrite (normalize_dates_utf8 pl _ Hs) in Hclean.
  set (parsed := SDatetime (map (opt_bind (strptime pl "%Y-%m-%d")) xs)) in *.
  destruct (clean_result _ Hclean) as (a & _ & [(Hno & _) | (d & Hd & ->)]).
  - assert (Hhas : has_column "posting_date" (with_column "posting_date" parsed selected)
                   = true).
    { eapply get_column_has. apply get_column_with_column_same. }
    congruence.
  - rewrite get_column_with_column_same in Hd. inversion Hd. subst d.
    apply height_filter_all_false.
    rewrite is_not_null_filter. apply filter_mask_forall.
    unfold parsed. simpl. rewrite Forall_map, Forall_map. apply Forall_forall.
    intros [text|] Hin; simpl; [|reflexivity].
    now rewrite (Hnone text Hin).
Qed.

Lemma unmatched_dates_drop_every_row_witness :
  exists cleaned,
    clean (normalize_dates reference_polars
             [ ("amount", SFloat64 [Some (F64.Fin 10); Some (F64.Fin 20)]);
               ("posting_date", SUtf8 [Some "01/06/2024"; Some "06-Jan-2024"]) ])
      = inr cleaned
    /\ height cleaned = 0%nat.
Proof.
  eexists. split; [vm_compute; reflexivity|].
  apply (@unmatched_dates_drop_every_row reference_polars
           [ ("amount", SFloat64 [Some (F64.Fin 10); Some (F64.Fin 20)]);
             ("posting_date", SUtf8 [Some "01/06/2024"; Some "06-Jan-2024"]) ]
           _ [Some "01/06/2024"; Some "06-Jan-2024"]).
  - reflexivity.
  - intros text [E|[E|[]]]; inversion E; reflexivity.
  - vm_compute. reflexivity.
Defined.

(** ** The per-flag counts *)

Lemma filter_true_mask_length {A} (b : list (option bool)) :
  forall xs : list A,
    List.length xs = List.length b ->
    List.length (filter_mask (true_mask b) xs) = count_true b.
Proof.
  unfold count_true.
  induction b as [|[[|]|] b IH]; intros [|x xs] H; simpl in *;
    try discriminate; try reflexivity;
    injection H as H; rewrite <- (IH xs H); reflexivity.
Qed.

Lemma mask_and_absorb (has b : list (option bool)) :
  Forall2 implies_true has b ->
  mask_and (true_mask has) (true_mask b) = true_mask b.
Proof.
  unfold mask_and, true_mask.
  induction 1 as [|hv bv has b Hi _ IH]; simpl; [reflexivity|].
  f_equal; [|exact IH].
  destruct bv as [[|]|]; try apply andb_false_r.
  now rewrite (Hi eq_refl).
Qed.

Lemma zip_or_length (x y : list (option bool)) :
  List.length x = List.length y -> List.length (zip_or x y) = List.length x.
Proof. intros H. unfold zip_or. rewrite length_map, length_combine. lia. Qed.

Lemma zip_or_left (x : list (option bool)) :
  forall y, List.length x = List.length y -> Forall2 implies_true (zip_or x y) x.
Proof.
  unfold zip_or.
  induction x as [|a x IH]; intros [|b y] H; simpl in *; try discriminate;
    constructor; [|apply IH; congruence].
  intros ->. reflexivity.
Qed.

Lemma zip_or_right (x : list (option bool)) :
  forall y, List.length x = List.length y -> Forall2 implies_true (zip_or x y) y.
Proof.
  unfold zip_or.
  induction x as [|a x IH]; intros [|b y] H; simpl in *; try discriminate;
    constructor; [|apply IH; congruence].
  intros ->. destruct a as [[|]|]; reflexivity.
Qed.

Lemma implies_true_trans (x : list (option bool)) :
  forall y z,
    Forall2 implies_true x y -> Forall2 implies_true y z ->
    Forall2 implies_true x z.
Proof.
  induction x as [|a x IH]; intros y z Hxy Hyz; inversion Hxy; subst;
    inversion Hyz; subst; constructor.
  - unfold implies_true in *. auto.
  - eapply IH; eassumption.
Qed.

(** Every term of the OR implies the OR. *)
Lemma or_of_four (w d h r : list (option bool)) (n : nat) :
  List.length w = n -> List.length d = n ->
  List.length h = n -> List.length r = n ->
  let has := zip_or w (zip_or d (zip_or h r)) in
  List.length has = n
  /\ Forall2 implies_true has w /\ Forall2 implies_true has d
  /\ Forall2 implies_true has h /\ Forall2 implies_true has r.
Proof.
  intros Hw Hd Hh Hr has.
  assert (L3 : List.length (zip_or h r) = n)
    by (rewrite zip_or_length; congruence).
  assert (L2 : List.length (zip_or d (zip_or h r)) = n)
    by (rewrite zip_or_length; congruence).
  assert (L1 : List.length has = n)
    by (unfold has; rewrite zip_or_length; congruence).
  assert (R1 : Forall2 implies_true has (zip_or d (zip_or h r)))
    by (apply zip_or_right; congruence).
  assert (R2 : Forall2 implies_true has (zip_or h r)).
  { eapply implies_true_trans; [exact R1|]. apply zip_or_right. congruence. }
  split; [exact L1|]. split; [apply zip_or_left; congruence|].
  split; [eapply implies_true_trans; [exact R1|]; apply zip_or_left; congruence|].
  split; (eapply implies_true_trans; [exact R2|]);
    [apply zip_or_left|apply zip_or_right]; congruence.
Qed.

Lemma struct_is_duplicated_length (names : list string) (df : frame) b :
  struct_is_duplicated names df = inr (SBoolean b) ->
  List.length b = height df.
Proof.
  unfold struct_is_duplicated. destruct (get_columns names df); [discriminate|].
  cbn [bind ret]. unfold is_duplicated, struct_rows. intros H. inversion H.
  now rewrite !length_map, length_seq.
Qed.

Lemma lit_false_length (df : frame) b :
  ret (lit_false df) = inr (SBoolean b) -> List.length b = height df.
Proof. unfold lit_false, ret. intros H. inversion H. apply repeat_length. Qed.

(** On a table whose columns all have the table's height, the four Entry
    flags have one value per row. *)
Lemma entry_flag_lengths (pl : polars) (cleaned : frame) xs rest w d h r :
  cleaned = ("amount", SFloat64 xs) :: rest ->
  all_len (height cleaned) cleaned ->
  weekend_entry cleaned = inr (SBoolean w) ->
  duplicate_entry cleaned = inr (SBoolean d) ->
  high_value_entry pl cleaned = inr (SBoolean h) ->
  repeating_entry cleaned = inr (SBoolean r) ->
  List.length w = height cleaned /\ List.length d = height cleaned
  /\ List.length h = height cleaned /\ List.length r = height cleaned.
Proof.
  intros Hshape Hall Hw Hd Hh Hr.
  assert (Hamt : amounts cleaned = inr xs) by (subst; reflexivity).
  assert (Hxs : List.length xs = height cleaned).
  { subst cleaned. unfold height, series_len. simpl. now rewrite length_map. }
  split; [|split; [|split]].
  - unfold weekend_entry in Hw.
    destruct (has_column "posting_date" cleaned).
    + destruct (get_column "posting_date" cleaned) as [|s] eqn:Hs; [discriminate|].
      cbn [bind] in Hw. destruct s; try discriminate. inversion Hw.
      rewrite length_map.
      rewrite <- (@all_len_column (height cleaned) cleaned _ _ Hall Hs).
      unfold series_len. simpl. now rewrite length_map.
    + inversion Hw. apply repeat_length.
  - unfold duplicate_entry in Hd. destruct (Nat.ltb 0 _).
    + eapply struct_is_duplicated_length. eassumption.
    + now apply lit_false_length.
  - unfold high_value_entry, high_value_threshold in Hh.
    destruct (Nat.ltb 10 (height cleaned)).
    + rewrite Hamt in Hh. cbn [bind ret] in Hh. inversion Hh.
      now rewrite length_map.
    + now apply lit_false_length.
  - unfold repeating_entry in Hr.
    destruct (has_column "description" cleaned && has_column "account" cleaned).
    + eapply struct_is_duplicated_length. eassumption.
    + now apply lit_false_length.
Qed.

Lemma build_results_spec (pl : polars) (cleaned : frame) xs rest cols results :
  cleaned = ("amount", SFloat64 xs) :: rest ->
  incl (columns cleaned) canonical_names ->
  build_results pl cleaned = inr (cols, results) ->
  exists w d h r rest',
    weekend_entry cleaned = inr (SBoolean w)
    /\ duplicate_entry cleaned = inr (SBoolean d)
    /\ high_value_entry pl cleaned = inr (SBoolean h)
    /\ repeating_entry cleaned = inr (SBoolean r)
    /\ cols = entry_flags
    /\ results = ("amount", SFloat64 xs) :: rest'
    /\ get_column "Has Anomaly" results =
         inr (SBoolean (zip_or w (zip_or d (zip_or h r))))
    /\ get_column "Weekend Entry" results = inr (SBoolean w)
    /\ get_column "Duplicate Entry" results = inr (SBoolean d)
    /\ get_column "High-Value Entry" results = inr (SBoolean h)
    /\ get_column "Repeating Entry" results = inr (SBoolean r).
Proof.
  intros Hshape Hcan. unfold build_results.
  destruct (anomaly_exprs pl cleaned) as [|exprs] eqn:He; [discriminate|].
  cbn [bind].
  rewrite (@anomaly_cols_with_flags cleaned exprs Hcan (anomaly_exprs_names _ _ He)).
  unfold anomaly_exprs in He.
  destruct (round_large_amount cleaned) as [|f1]; [discriminate|].
  destruct (near_zero_amount cleaned) as [|f2]; [discriminate|].
  destruct (suspicious_description cleaned) as [|f3]; [discriminate|].
  destruct (weekend_entry cleaned) as [|f4] eqn:H4; [discriminate|].
  destruct (duplicate_entry cleaned) as [|f5] eqn:H5; [discriminate|].
  destruct (high_value_entry pl cleaned) as [|f6] eqn:H6; [discriminate|].
  destruct (repeating_entry cleaned) as [|f7] eqn:H7; [discriminate|].
  cbn [bind ret] in He. inversion He. subst exprs. clear He.
  destruct (weekend_entry_boolean _ H4) as (w & ->).
  destruct (duplicate_entry_boolean _ H5) as (d & ->).
  destruct (high_value_entry_boolean _ _ H6) as (h & ->).
  destruct (repeating_entry_boolean _ H7) as (r & ->).
  unfold flag_names, with_columns, entry_flags.
  cbn [combine fold_left fst snd any_horizontal].
  repeat (rewrite ?get_column_with_column_same;
          rewrite ?get_column_with_column_other by reflexivity;
          cbn [bind ret bool_values]).
  intros H. inversion H. subst cols results. clear H.
  exists w, d, h, r.
  subst cleaned. rewrite !with_column_head by reflexivity.
  eexists. repeat (split; [reflexivity|]).
  cbn [get_column String.eqb Ascii.eqb Bool.eqb].
  repeat split;
    repeat (rewrite ?get_column_with_column_same;
            rewrite ?get_column_with_column_other by reflexivity);
    reflexivity.
Qed.

Lemma true_mask_filter (mask : list bool) (b : list (option bool)) :
  true_mask (filter_mask mask b) = filter_mask mask (true_mask b).
Proof. unfold true_mask. symmetry. apply filter_mask_map. Qed.

Lemma chart_count_value (results : frame) xs rest (col : string)
    (has b : list (option bool)) (hit : frame) :
  results = ("amount", SFloat64 xs) :: rest ->
  List.length xs = List.length b ->
  get_column col results = inr (SBoolean b) ->
  Forall2 implies_true has b ->
  filter_by col (filter_frame (true_mask has) results) = inr hit ->
  height hit = count_true b.
Proof.
  intros Hshape Hlen Hb Himp. unfold filter_by.
  rewrite get_column_filter_frame, Hb. cbn [bind ret filter_series bool_values].
  intros H. inversion H. clear H.
  rewrite true_mask_filter, filter_frame_twice, (mask_and_absorb Himp).
  subst results. unfold height, series_len. simpl. rewrite length_map.
  now apply filter_true_mask_length.
Qed.

Lemma chart_counts_in (anomalies : frame) (cols : list string) :
  forall charts col k,
    chart_counts cols anomalies = inr charts ->
    In (col, k) charts ->
    In col cols /\ exists hit, filter_by col anomalies = inr hit /\ k = height hit.
Proof.
  induction cols as [|c cols IH]; intros charts col k; simpl.
  - intros H. inversion H. intros [].
  - destruct (filter_by c anomalies) as [|hit] eqn:Hhit; [discriminate|].
    cbn [bind]. destruct (chart_counts cols anomalies) as [|more] eqn:Hm;
      [discriminate|].
    cbn [bind ret]. intros H. inversion H. intros [E|Hin].
    + inversion E. subst. split; [now left|eauto].
    + destruct (IH more col k eq_refl Hin) as (Hc & Hx). split; [now right|exact Hx].
Qed.

Lemma all_len_height (n : nat) (df : frame) c rest :
  df = c :: rest -> all_len n df -> height df = n.
Proof.
  intros -> H. inversion H as [|? ? Hc Hrest]. destruct c. exact Hc.
Qed.

(** For each flag that [charts.anomalies] reports, the count is the number
    of cleaned rows where that flag is true: restricting the count to the
    rows with [Has Anomaly] loses nothing, because each reported flag
    implies [Has Anomaly]. *)
Theorem reported_counts_are_row_counts (pl : polars) (df_full : frame) (p : payload) :
  wf_frame df_full ->
  analyze_je pl df_full = Success p ->
  exists results,
    results_of pl df_full = inr results
    /\ map fst (charts_anomalies p) = entry_flags
    /\ forall col k,
         In (col, k) (charts_anomalies p) ->
         exists b, get_column col results = inr (SBoolean b) /\ k = count_true b.
Proof.
  intros Hwf. unfold analyze_je, analyze_body, analyze_rest, results_of, cleaned_of.
  destruct (Nat.eqb (height df_full) 0); [discriminate|].
  destruct (amount_series pl df_full) as [|amount] eqn:Ha; [discriminate|].
  cbn [bind].
  destruct (select_frame df_full amount) as [|selected] eqn:Hs; [discriminate|].
  cbn [bind].
  destruct (clean (normalize_dates pl selected)) as [|cleaned] eqn:Hc; [discriminate|].
  cbn [bind].
  destruct (build_results pl cleaned) as [|[cols results]] eqn:Hb; [discriminate|].
  cbn [bind ret fst snd].
  destruct (summarize cols results) as [|p'] eqn:Hp; [discriminate|].
  intros E. inversion E. subst p'. clear E.
  exists results. split; [reflexivity|].
  (* shape and lengths of the cleaned table *)
  edestruct cleaned_shape as (mask & crest & Hshape); [exact Hs|exact Hc|].
  assert (Hcan : incl (columns cleaned) canonical_names).
  { rewrite (clean_columns _ Hc), normalize_dates_columns.
    eapply select_frame_names. exact Hs. }
  assert (Hall : all_len (height cleaned) cleaned).
  { pose proof (@amount_series_length pl df_full amount Hwf Ha) as Hlen.
    destruct (@select_frame_all_len df_full amount Hwf Hlen) as (srest & Hs' & Hl).
    rewrite Hs' in Hs. inversion Hs. subst selected.
    destruct (@clean_all_len (height df_full) _ cleaned
                (normalize_dates_all_len pl Hl) Hc) as (m & Hm).
    now rewrite (@all_len_height m cleaned _ _ Hshape Hm). }
  destruct (@build_results_spec pl cleaned _ _ cols results Hshape Hcan Hb)
    as (w & d & h & r & rest' & Hw & Hd & Hh & Hr & -> & Hres & Hhas
        & Hgw & Hgd & Hgh & Hgr).
  destruct (@entry_flag_lengths pl cleaned _ _ w d h r Hshape Hall Hw Hd Hh Hr)
    as (Lw & Ld & Lh & Lr).
  destruct (@or_of_four w d h r (height cleaned) Lw Ld Lh Lr)
    as (_ & Iw & Id & Ih & Ir).
  assert (Hxs : List.length (filter_mask mask amount) = height cleaned).
  { rewrite Hshape. unfold height, series_len. simpl. now rewrite length_map. }
  (* the summary *)
  unfold summarize, filter_by in Hp. rewrite Hhas in Hp.
  cbn [bind ret bool_values] in Hp.
  destruct (amounts results); [discriminate|]. cbn [bind] in Hp.
  destruct (imbalance _ _); [discriminate|]. cbn [bind] in Hp.
  destruct (chart_counts entry_flags _) as [|charts] eqn:Hcharts; [discriminate|].
  cbn [bind ret] in Hp. inversion Hp. subst p. clear Hp. simpl.
  split; [apply (chart_counts_bounded _ _ Hcharts)|].
  intros col k Hin.
  destruct (chart_counts_in _ _ _ _ Hcharts Hin) as (Hcol & hit & Hhit & ->).
  destruct Hcol as [<-|[<-|[<-|[<-|[]]]]]; eexists; (split; [eassumption|]);
    eapply chart_count_value; try eassumption; congruence.
Qed.

Lemma reported_counts_are_row_counts_witness :
  exists p results,
    analyze_je reference_polars weekend_table = Success p
    /\ results_of reference_polars weekend_table = inr results
    /\ map fst (charts_anomalies p) = entry_flags
    /\ forall col k,
         In (col, k) (charts_anomalies p) ->
         exists b, get_column col results = inr (SBoolean b) /\ k = count_true b.
Proof.
  eexists.
  assert (E : analyze_je reference_polars weekend_table = Success _)
    by (vm_compute; reflexivity).
  destruct (@reported_counts_are_row_counts reference_polars weekend_table _
              ltac:(repeat constructor) E) as (results & H).
  exists results. split; [exact E|exact H].
Defined.
